(** * charge_manager: blend-optimization models, seeding and compliance reports

    A shallow embedding of the Python sources

      - [eaf_charge_gekko.py]   (module [EafChargeGekko])
      - [calculo_carga_eaf.py]  (module [CalculoCargaEaf])
      - [reports.py]            (module [Reports])
      - [charge_gekko_example.py] (module [ChargeGekkoExample])

    The numbers of the configuration, the constants of the equations and
    the assignments a model is evaluated at are exact rationals ([Q]); the
    seeding heuristics, whose result depends on rounding, compute in IEEE
    754 binary64 ([Float64]), and so do the values the GEKKO variables
    hold.  The data loaded from YAML is a dynamically typed [value]; Python
    exceptions are the [Raise] branch of [result].  The GEKKO model object
    is a record of declared variables, equations and objectives; its
    expressions are the syntax trees GEKKO builds through operator
    overloading. *)

From Stdlib Require Import List String Ascii Bool Arith ZArith QArith Qfield Lqa Lia.
From Stdlib Require Import SpecFloat.
Import ListNotations.

Local Open Scope string_scope.
Local Open Scope Q_scope.

(** ** Python values, exceptions and the few builtins the sources use *)

Module Py.

Inductive exn : Type :=
| KeyError
| IndexError
| TypeError
| AttributeError
| ValueError
| ZeroDivisionError
| SolverException.

(** The class name an exception prints with. *)
Definition exception_name (e : exn) : string :=
  match e with
  | KeyError => "KeyError"
  | IndexError => "IndexError"
  | TypeError => "TypeError"
  | AttributeError => "AttributeError"
  | ValueError => "ValueError"
  | ZeroDivisionError => "ZeroDivisionError"
  | SolverException => "Exception"
  end.

Inductive result (A : Type) : Type :=
| Ok (a : A)
| Raise (e : exn).
Arguments Ok {A} a.
Arguments Raise {A} e.

Definition bind {A B} (c : result A) (k : A -> result B) : result B :=
  match c with
  | Ok a => k a
  | Raise e => Raise e
  end.

Definition returns {A} (c : result A) : bool :=
  match c with Ok _ => true | Raise _ => false end.

(** What [yaml.safe_load] hands to the program. *)
#[warnings="-register-all"]
Inductive value : Type :=
| VNone
| VNum (q : Q)
| VStr (s : string)
| VDict (d : list (string * value)).

Fixpoint assoc {A} (k : string) (d : list (string * A)) : option A :=
  match d with
  | [] => None
  | (k', v) :: d' => if String.eqb k k' then Some v else assoc k d'
  end.

(** [d[k]] *)
Definition getitem (v : value) (k : string) : result value :=
  match v with
  | VDict d => match assoc k d with Some x => Ok x | None => Raise KeyError end
  | _ => Raise TypeError
  end.

(** [d.get(k, default)] *)
Definition dict_get (v : value) (k : string) (default : value) : result value :=
  match v with
  | VDict d => match assoc k d with Some x => Ok x | None => Ok default end
  | _ => Raise AttributeError
  end.

(** [list(d.keys())] *)
Definition keys (v : value) : result (list string) :=
  match v with
  | VDict d => Ok (map fst d)
  | _ => Raise AttributeError
  end.

(** [k in d] for a dict literal of the program itself. *)
Definition mem {A} (k : string) (d : list (string * A)) : bool :=
  match assoc k d with Some _ => true | None => false end.

(** A value used where Python needs a number. *)
Definition as_num (v : value) : result Q :=
  match v with
  | VNum q => Ok q
  | _ => Raise TypeError
  end.

(** [l[i]] on a list. *)
Definition index {A} (l : list A) (i : nat) : result A :=
  match nth_error l i with Some a => Ok a | None => Raise IndexError end.

(** [[f(a) for a in l]] with a body that may raise. *)
Fixpoint mapM {A B} (f : A -> result B) (l : list A) : result (list B) :=
  match l with
  | [] => Ok []
  | a :: l' =>
      bind (f a) (fun b => bind (mapM f l') (fun bs => Ok (b :: bs)))
  end.

(** A [for] loop threading a state through a body that may raise. *)
Fixpoint foldM {A S} (f : S -> A -> result S) (l : list A) (s : S) : result S :=
  match l with
  | [] => Ok s
  | a :: l' => bind (f s a) (foldM f l')
  end.

(** [sum(l)] on numbers: starts from 0 and adds left to right. *)
Definition sum (l : list Q) : Q := fold_left Qplus l 0.

(** [a > b] on numbers. *)
Definition gt (a b : Q) : bool := negb (Qle_bool a b).

(** [a / b] on numbers. *)
Definition truediv (a b : Q) : result Q :=
  if Qeq_bool b 0 then Raise ZeroDivisionError else Ok (a / b).

(** [s.lower()], on the ASCII range. *)
Definition lower_ascii (c : ascii) : ascii :=
  let n := nat_of_ascii c in
  if (65 <=? n)%nat && (n <=? 90)%nat then ascii_of_nat (n + 32) else c.

Fixpoint lower (s : string) : string :=
  match s with
  | EmptyString => EmptyString
  | String c s' => String (lower_ascii c) (lower s')
  end.

(** [s.replace('%', '')] *)
Fixpoint remove_percent (s : string) : string :=
  match s with
  | EmptyString => EmptyString
  | String c s' =>
      if Ascii.eqb c "%"%char then remove_percent s'
      else String c (remove_percent s')
  end.

(** ['%' in s] *)
Fixpoint has_percent (s : string) : bool :=
  match s with
  | EmptyString => false
  | String c s' => Ascii.eqb c "%"%char || has_percent s'
  end.

(** [float(s)] on the plain decimal notation the configuration uses:
    optional blanks, an optional sign, digits with an optional fractional
    part.  Any other text is a [ValueError] here. *)
Definition digit_of (c : ascii) : option Z :=
  let n := nat_of_ascii c in
  if (48 <=? n)%nat && (n <=? 57)%nat then Some (Z.of_nat (n - 48)) else None.

Definition is_blank (c : ascii) : bool :=
  let n := nat_of_ascii c in
  (n =? 32)%nat || ((9 <=? n)%nat && (n <=? 13)%nat).

Fixpoint lstrip (s : list ascii) : list ascii :=
  match s with
  | c :: s' => if is_blank c then lstrip s' else s
  | [] => []
  end.

Definition strip (s : list ascii) : list ascii :=
  rev (lstrip (rev (lstrip s))).

(** Digits read so far: their value and how many there were. *)
Fixpoint read_digits (s : list ascii) (acc : Z) (n : nat)
  : Z * nat * list ascii :=
  match s with
  | c :: s' =>
      match digit_of c with
      | Some d => read_digits s' (10 * acc + d)%Z (S n)
      | None => (acc, n, s)
      end
  | [] => (acc, n, [])
  end.

Definition parse_unsigned (s : list ascii) : option Q :=
  let '(ip, ni, rest) := read_digits s 0%Z 0%nat in
  match rest with
  | [] => if (ni =? 0)%nat then None else Some (inject_Z ip)
  | c :: rest' =>
      if Ascii.eqb c "."%char then
        let '(fp, nf, rest'') := read_digits rest' 0%Z 0%nat in
        match rest'' with
        | [] =>
            if ((ni + nf)%nat =? 0)%nat then None
            else Some (inject_Z ip + Qmake fp (Pos.pow 10 (Pos.of_nat nf)) *
                       (if (nf =? 0)%nat then 0 else 1))
        | _ => None
        end
      else None
  end.

Definition float_of_string (s : string) : result Q :=
  let cs := strip (list_ascii_of_string s) in
  let signed :=
    match cs with
    | c :: cs' =>
        if Ascii.eqb c "-"%char then option_map Qopp (parse_unsigned cs')
        else if Ascii.eqb c "+"%char then parse_unsigned cs'
        else parse_unsigned cs
    | [] => None
    end in
  match signed with Some q => Ok q | None => Raise ValueError end.

(** [float(str(v).replace('%', ''))]: a number prints and reads back as
    itself; [None] and dicts print as text that is no number. *)
Definition float_of_str_without_percent (v : value) : result Q :=
  match v with
  | VNum q => Ok q
  | VStr s => float_of_string (remove_percent s)
  | VNone => Raise ValueError
  | VDict _ => Raise ValueError
  end.

(** [float(v)] *)
Definition float (v : value) : result Q :=
  match v with
  | VNum q => Ok q
  | VStr s => float_of_string s
  | VNone => Raise TypeError
  | VDict _ => Raise TypeError
  end.

End Py.

Import Py.

Notation "x <- c ;; k" := (bind c (fun x => k))
  (at level 61, c at next level, right associativity).
Notation "' pat <- c ;; k" := (bind c (fun x => match x with pat => k end))
  (at level 61, pat pattern, c at next level, right associativity).

(** ** Python floats

    A Python float is an IEEE 754 binary64 number.  [SpecFloat] is the
    executable specification of its arithmetic: every operation returns the
    exact result rounded to the nearest float, ties to even; a result too
    large is an infinity, and an undefined one is not-a-number. *)

Module Float64.

Definition float64 : Type := spec_float.

Definition prec : Z := 53.
Definition emax : Z := 1024.

(** The float nearest to [m * 2^e]. *)
Definition make (m e : Z) : float64 := binary_normalize prec emax m e false.

(** [float(n)] on an int. *)
Definition of_Z (n : Z) : float64 := make n 0.

(** [Some k] for the denominator [2^k]. *)
Fixpoint log2_exact (p : positive) : option Z :=
  match p with
  | xH => Some 0%Z
  | xO p' => option_map Z.succ (log2_exact p')
  | xI _ => None
  end.

(** The float a number of the program or of the configuration stands for:
    zero is [0.0]; an int or a float is its own value (an int above [2^53]
    is rounded, as Python converts it in [float * int]); a decimal literal
    such as [0.35] is the float nearest to it, here the rounded quotient of
    the two ints it is written with. *)
Definition of_Q (q : Q) : float64 :=
  match Qnum q with
  | 0%Z => S754_zero false
  | _ =>
      match log2_exact (Qden q) with
      | Some k => make (Qnum q) (- k)
      | None => SFdiv prec emax (of_Z (Qnum q)) (of_Z (Zpos (Qden q)))
      end
  end.

(** [0.0] *)
Definition zero : float64 := S754_zero false.

Definition is_zero (x : float64) : bool :=
  match x with
  | S754_zero _ => true
  | _ => false
  end.

Definition is_finite (x : float64) : bool :=
  match x with
  | S754_zero _ | S754_finite _ _ _ => true
  | _ => false
  end.

(** [a * b] and [a + b] never raise. *)
Definition mul (a b : float64) : float64 := SFmul prec emax a b.
Definition add (a b : float64) : float64 := SFadd prec emax a b.

(** The quotient by a divisor other than zero. *)
Definition div (a b : float64) : float64 := SFdiv prec emax a b.

(** [a / b]: a zero divisor, of either sign, is a [ZeroDivisionError]
    whatever the dividend. *)
Definition truediv (a b : float64) : result float64 :=
  if is_zero b then Raise ZeroDivisionError else Ok (div a b).

(** [sum(l)]: starts from the int 0 and adds left to right. *)
Definition sum (l : list float64) : float64 := fold_left add l zero.

(** [a < b] *)
Definition lt (a b : float64) : bool := SFltb a b.

End Float64.

Abbreviation float64 := Float64.float64.

(** ** The GEKKO model object

    [m.Var], [m.Equation] and [m.Obj] append to the model; arithmetic and
    comparisons on GEKKO variables build syntax, while arithmetic between
    two plain numbers is computed by Python at once. *)

Module Gekko.

Inductive expr : Type :=
| EConst (q : Q)
| EVar (i : nat)
| EAdd (a b : expr)
| EMul (a b : expr)
| EDiv (a b : expr).

Inductive cmp : Type := CmpEq | CmpGe | CmpLe.

Record equation : Type := mkEquation {
  eq_lhs : expr;
  eq_cmp : cmp;
  eq_rhs : expr
}.

(** A declared variable: the float it holds, and its bounds. *)
Record gvar : Type := mkVar {
  gv_value : float64;
  gv_lb : option Q;
  gv_ub : option Q
}.

Record model : Type := mkModel {
  variables : list gvar;
  equations : list equation;
  objectives : list expr
}.

(** [GEKKO(remote=False)] *)
Definition GEKKO : model :=
  {| variables := []; equations := []; objectives := [] |}.

(** [m.Var(value=v, lb=l, ub=u)]: the variable is known by its position. *)
Definition Var (m : model) (v : float64) (l u : option Q) : model * expr :=
  ({| variables := (variables m ++ [mkVar v l u])%list;
      equations := equations m;
      objectives := objectives m |},
   EVar (List.length (variables m))).

(** [m.Equation(eq)] *)
Definition Equation (m : model) (e : equation) : model :=
  {| variables := variables m;
     equations := (equations m ++ [e])%list;
     objectives := objectives m |}.

(** [m.Obj(e)] *)
Definition Obj (m : model) (e : expr) : model :=
  {| variables := variables m;
     equations := equations m;
     objectives := (objectives m ++ [e])%list |}.

(** The overloaded operators. *)
Definition add (a b : expr) : expr :=
  match a, b with
  | EConst x, EConst y => EConst (x + y)
  | _, _ => EAdd a b
  end.

Definition mul (a b : expr) : expr :=
  match a, b with
  | EConst x, EConst y => EConst (x * y)
  | _, _ => EMul a b
  end.

Definition div (a b : expr) : result expr :=
  match a, b with
  | EConst x, EConst y => x' <- truediv x y ;; Ok (EConst x')
  | _, _ => Ok (EDiv a b)
  end.

(** [sum(terms)]: Python starts from the number 0. *)
Definition sum (ts : list expr) : expr := fold_left add ts (EConst 0).

Definition at_least (a b : expr) : equation := mkEquation a CmpGe b.
Definition at_most (a b : expr) : equation := mkEquation a CmpLe b.
Definition equal (a b : expr) : equation := mkEquation a CmpEq b.

(** *** Meaning of a model at an assignment of its variables *)

Definition lift2 (f : Q -> Q -> Q) (a b : option Q) : option Q :=
  match a, b with
  | Some x, Some y => Some (f x y)
  | _, _ => None
  end.

Fixpoint eval (xs : list Q) (e : expr) : option Q :=
  match e with
  | EConst q => Some q
  | EVar i => nth_error xs i
  | EAdd a b => lift2 Qplus (eval xs a) (eval xs b)
  | EMul a b => lift2 Qmult (eval xs a) (eval xs b)
  | EDiv a b =>
      match eval xs a, eval xs b with
      | Some x, Some y => if Qeq_bool y 0 then None else Some (x / y)
      | _, _ => None
      end
  end.

Definition compare (c : cmp) (a b : Q) : bool :=
  match c with
  | CmpEq => Qeq_bool a b
  | CmpGe => Qle_bool b a
  | CmpLe => Qle_bool a b
  end.

Definition holds (xs : list Q) (e : equation) : bool :=
  match eval xs (eq_lhs e), eval xs (eq_rhs e) with
  | Some a, Some b => compare (eq_cmp e) a b
  | _, _ => false
  end.

Definition within (v : gvar) (x : Q) : bool :=
  match gv_lb v with Some l => Qle_bool l x | None => true end &&
  match gv_ub v with Some u => Qle_bool x u | None => true end.

Fixpoint within_all (vs : list gvar) (xs : list Q) : bool :=
  match vs, xs with
  | [], [] => true
  | v :: vs', x :: xs' => within v x && within_all vs' xs'
  | _, _ => false
  end.

(** An assignment is feasible when it respects the declared bounds and
    every equation. *)
Definition feasible (m : model) (xs : list Q) : bool :=
  within_all (variables m) xs && forallb (holds xs) (equations m).

(** The objective value: the sum of the declared objectives. *)
Definition objective (m : model) (xs : list Q) : option Q :=
  fold_left (fun acc e => lift2 Qplus acc (eval xs e)) (objectives m) (Some 0).

(** [xs] is an optimum: feasible, and no feasible assignment is cheaper. *)
Definition optimal (m : model) (xs : list Q) : Prop :=
  feasible m xs = true /\
  exists c, objective m xs = Some c /\
    forall ys c', feasible m ys = true -> objective m ys = Some c' -> c <= c'.

End Gekko.

Import Gekko.

(** ** Code shared, line for line, by [eaf_charge_gekko.py] and
    [calculo_carga_eaf.py] *)

Module Common.

(** [normalize_chemistry_value(value)]: percent to fraction; [None] is 0.0;
    dividing text or a dict by a float is a [TypeError]. *)
Definition normalize_chemistry_value (v : value) : result Q :=
  match v with
  | VNone => Ok 0.0
  | VNum q => Ok (q / 100.0)
  | VStr _ => Raise TypeError
  | VDict _ => Raise TypeError
  end.

(** [normalize_chemistry_value(materials_data[material]['chemistry'][side].get(e, 0))] *)
Definition material_chemistry (materials_data : value) (material side e : string)
  : result Q :=
  mat <- getitem materials_data material ;;
  chem <- getitem mat "chemistry" ;;
  bound <- getitem chem side ;;
  v <- dict_get bound e (VNum 0) ;;
  normalize_chemistry_value v.

(** [[x[i]*normalize_chemistry_value(...[materials[i]]...[side].get(e,0))
      for i in range(len(materials))]] *)
Definition mix_terms (x : list expr) (materials_data : value)
    (materials : list string) (side e : string) : result (list expr) :=
  mapM (fun i =>
          xi <- index x i ;;
          mi <- index materials i ;;
          c <- material_chemistry materials_data mi side e ;;
          Ok (mul xi (EConst c)))
       (seq 0 (List.length materials)).

(** [float(str(materials_data[m][key]).replace('%',''))/100] *)
Definition material_fraction (materials_data : value) (material key : string)
  : result Q :=
  mat <- getitem materials_data material ;;
  raw <- getitem mat key ;;
  q <- float_of_str_without_percent raw ;;
  Ok (q / 100).

(** [materials_data[m][key]] *)
Definition material_field (materials_data : value) (material key : string)
  : result value :=
  mat <- getitem materials_data material ;;
  getitem mat key.

(** [ub=stock[i]]: GEKKO reads [None] as no bound. *)
Definition upper_bound (v : value) : result (option Q) :=
  match v with
  | VNum q => Ok (Some q)
  | VNone => Ok None
  | _ => Raise TypeError
  end.

(** [[i for i, m_name in enumerate(materials)
       if materials_data[m_name].get('type', '').lower() == tag]] *)
Definition indices_of_type (materials_data : value) (materials : list string)
    (tag : string) : result (list nat) :=
  foldM (fun acc i =>
           m_name <- index materials i ;;
           mat <- getitem materials_data m_name ;;
           ty <- dict_get mat "type" (VStr "") ;;
           match ty with
           | VStr s =>
               Ok (if String.eqb (lower s) tag then (acc ++ [i])%list else acc)
           | _ => Raise AttributeError
           end)
        (seq 0 (List.length materials)) [].

(** [[m.Var(value=initial[i], lb=0, ub=stock[i]) for i in range(n)]] *)
Definition declare_variables (m : model) (initial : list float64)
    (stock : list value) (n : nat) : result (model * list expr) :=
  foldM (fun '(m, x) i =>
           v <- index initial i ;;
           s <- index stock i ;;
           ub <- upper_bound s ;;
           let '(m', xi) := Var m v (Some 0) ub in
           Ok (m', (x ++ [xi])%list))
        (seq 0 n) (m, []).

(** The four chemistry equations of one element, appended to the model. *)
Definition chemistry_constraints (heat_weight : Q) (materials_data : value)
    (materials : list string) (charge_min charge_max : value)
    (x : list expr) (m : model) (e : string) : result model :=
  lo_terms <- mix_terms x materials_data materials "min" e ;;
  min_mix <- div (sum lo_terms) (EConst heat_weight) ;;
  hi_terms <- mix_terms x materials_data materials "max" e ;;
  max_mix <- div (sum hi_terms) (EConst heat_weight) ;;
  cmin <- getitem charge_min e ;;
  lo <- normalize_chemistry_value cmin ;;
  let m := Equation m (at_least min_mix (EConst lo)) in
  cmax <- getitem charge_max e ;;
  hi <- normalize_chemistry_value cmax ;;
  let m := Equation m (at_most min_mix (EConst hi)) in
  cmin <- getitem charge_min e ;;
  lo <- normalize_chemistry_value cmin ;;
  let m := Equation m (at_least max_mix (EConst lo)) in
  cmax <- getitem charge_max e ;;
  hi <- normalize_chemistry_value cmax ;;
  Ok (Equation m (at_most max_mix (EConst hi))).

(** The two fraction equations of one material. *)
Definition fraction_constraints (heat_weight : Q) (x : list expr)
    (mat_min mat_max : list Q) (m : model) (i : nat) : result model :=
  xi <- index x i ;;
  share <- div xi (EConst heat_weight) ;;
  lo <- index mat_min i ;;
  let m := Equation m (at_least share (EConst lo)) in
  xi <- index x i ;;
  share <- div xi (EConst heat_weight) ;;
  hi <- index mat_max i ;;
  Ok (Equation m (at_most share (EConst hi))).

(** [[x[i] for i in indices]] *)
Definition pick (x : list expr) (indices : list nat) : result (list expr) :=
  mapM (index x) indices.

(** [[x[i]*cost[i] for i in range(n)]] *)
Definition cost_terms (x : list expr) (cost : list value) (n : nat)
  : result (list expr) :=
  mapM (fun i =>
          xi <- index x i ;;
          ci <- index cost i ;;
          c <- as_num ci ;;
          Ok (mul xi (EConst c)))
       (seq 0 n).

(** The body of [create_optimization_model] and of [crear_modelelo]; the two
    differ only in the seeding function they call, taken here as [seed]. *)
Definition charge_model
    (seed : value -> value -> value -> list string -> list string ->
            list Q -> list Q -> Q -> result (list float64))
    (materials_data charge_info : value) (heat_weight : Q)
  : result (model * list expr) :=
  charge_min <- getitem charge_info "min" ;;
  charge_max <- getitem charge_info "max" ;;
  min_acero_pct <- dict_get charge_info "min_acero_pct" (VNum 0.0) ;;
  max_returns <- dict_get charge_info "max_returns" VNone ;;
  materials <- keys materials_data ;;
  elements <- keys charge_min ;;
  cost <- mapM (fun m => material_field materials_data m "cost") materials ;;
  stock <- mapM (fun m => material_field materials_data m "stock") materials ;;
  mat_min <- mapM (fun m => material_fraction materials_data m "min") materials ;;
  mat_max <- mapM (fun m => material_fraction materials_data m "max") materials ;;
  initial_solution <-
    seed materials_data charge_min charge_max materials elements
         mat_min mat_max heat_weight ;;
  let m := GEKKO in
  '(m, x) <- declare_variables m initial_solution stock (List.length materials) ;;
  let m := Equation m (equal (sum x) (EConst heat_weight)) in
  acero_indices <- indices_of_type materials_data materials "acero" ;;
  m <- match acero_indices with
       | [] => Ok m
       | _ =>
           pct <- as_num min_acero_pct ;;
           if gt pct 0 then
             xs <- pick x acero_indices ;;
             Ok (Equation m (at_least (sum xs) (EConst (pct * heat_weight))))
           else Ok m
       end ;;
  returns_indices <- indices_of_type materials_data materials "returns" ;;
  m <- match returns_indices, max_returns with
       | [], _ => Ok m
       | _, VNone => Ok m
       | _, _ =>
           cap <- as_num max_returns ;;
           xs <- pick x returns_indices ;;
           Ok (Equation m (at_most (sum xs) (EConst (cap * heat_weight))))
       end ;;
  m <- foldM (chemistry_constraints heat_weight materials_data materials
                charge_min charge_max x) elements m ;;
  m <- foldM (fraction_constraints heat_weight x mat_min mat_max)
             (seq 0 (List.length materials)) m ;;
  terms <- cost_terms x cost (List.length materials) ;;
  Ok (Obj m (sum terms), x).

(** [sum(vals[i]*normalize_chemistry_value(...[materials[i]]...[side].get(e,0))
        for i in range(len(materials))) / heat_weight] on plain numbers. *)
Definition mix_value (vals : list Q) (materials_data : value)
    (materials : list string) (side e : string) (heat_weight : Q) : result Q :=
  terms <- mapM (fun i =>
                   v <- index vals i ;;
                   mi <- index materials i ;;
                   c <- material_chemistry materials_data mi side e ;;
                   Ok (v * c))
                (seq 0 (List.length materials)) ;;
  truediv (Py.sum terms) heat_weight.

(** [m.solve(...)], the external solver.  It ends normally with the values
    it found, which GEKKO loads into the variables, or it raises.  GEKKO
    loads results only after a solve that ended normally: when [m.solve]
    raises, the iterate the solver stopped at is not loaded, and every
    variable still holds the value it was declared with. *)
Inductive solve_outcome : Type :=
| Solved (values : list float64)
| Failed (last_iterate : list float64).

(** The [try: m.solve(disp=False) ... except Exception] block: the flag, and
    the values the variables [x] hold when it returns. *)
Definition try_solve (solve : model -> solve_outcome) (m : model)
  : bool * list float64 :=
  match solve m with
  | Solved values => (true, values)
  | Failed _ => (false, map gv_value (variables m))
  end.

End Common.

Import Common.

(** ** [eaf_charge_gekko.py] *)

Module EafChargeGekko.

Definition normalize_chemistry_value := Common.normalize_chemistry_value.

Definition nominal_composition : list (string * Q) :=
  [ ("fierro_Primera", 0.2);
    ("Retornos_CM", 0.35);
    ("chatarra_CM", 0.44);
    ("carbon", 0.0);
    ("FeSi75", 0.00) ].

(** The nominal amount of one material in the first loop:
    [nominal_composition[material] * heat_weight], a float product, or the
    literal [0.0]. *)
Definition nominal_amount (heat_weight : Q) (material : string) : float64 :=
  match assoc material nominal_composition with
  | Some share => Float64.mul (Float64.of_Q share) (Float64.of_Q heat_weight)
  | None => Float64.zero
  end.

(** [normalize_chemistry_value] where it meets the floats of the seed:
    [value / 100.0]. *)
Definition normalize_float (v : value) : result float64 :=
  match v with
  | VNone => Ok Float64.zero
  | VNum q => Float64.truediv (Float64.of_Q q) (Float64.of_Q 100.0)
  | VStr _ => Raise TypeError
  | VDict _ => Raise TypeError
  end.

(** [sum(initial_x[i] * normalize_chemistry_value(...[materials[i]]...
        [side].get(element, 0)) for i in range(n_materials)) / heat_weight] *)
Definition seed_mix (initial_x : list float64) (materials_data : value)
    (materials : list string) (side element : string) (heat_weight : Q)
  : result float64 :=
  terms <- mapM (fun i =>
                   v <- index initial_x i ;;
                   mi <- index materials i ;;
                   mat <- getitem materials_data mi ;;
                   chem <- getitem mat "chemistry" ;;
                   bound <- getitem chem side ;;
                   c <- dict_get bound element (VNum 0) ;;
                   c <- normalize_float c ;;
                   Ok (Float64.mul v c))
                (seq 0 (List.length materials)) ;;
  Float64.truediv (Float64.sum terms) (Float64.of_Q heat_weight).

(** The informational chemistry check of the seed: whether it is inside
    every element's range, and the elements that are not. *)
Definition seed_chemistry_check (materials_data charge_min charge_max : value)
    (materials elements : list string) (initial_x : list float64)
    (heat_weight : Q) : result (bool * list string) :=
  foldM (fun '(chemistry_feasible, chemistry_violations) element =>
           min_chem <- seed_mix initial_x materials_data materials
                                "min" element heat_weight ;;
           max_chem <- seed_mix initial_x materials_data materials
                                "max" element heat_weight ;;
           cmin <- getitem charge_min element ;;
           target_min <- normalize_float cmin ;;
           cmax <- getitem charge_max element ;;
           target_max <- normalize_float cmax ;;
           if Float64.lt min_chem target_min || Float64.lt target_max max_chem
           then Ok (false, (chemistry_violations ++ [element])%list)
           else Ok (chemistry_feasible, chemistry_violations))
        elements (true, []).

Definition calc_initial_solution (materials_data charge_min charge_max : value)
    (materials elements : list string) (mat_min mat_max : list Q)
    (heat_weight : Q) : result (list float64) :=
  let initial_x := map (nominal_amount heat_weight) materials in
  let total_weight := Float64.sum initial_x in
  scale_factor <- Float64.truediv (Float64.of_Q heat_weight) total_weight ;;
  let initial_x := map (fun x => Float64.mul x scale_factor) initial_x in
  _ <- seed_chemistry_check materials_data charge_min charge_max
                            materials elements initial_x heat_weight ;;
  Ok initial_x.

Definition create_optimization_model (materials_data charge_info : value)
    (heat_weight : Q) : result (model * list expr) :=
  charge_model calc_initial_solution materials_data charge_info heat_weight.

Section Solver.
Variable solve : model -> solve_outcome.

Definition solve_optimization (m : model) (x : list expr)
  : bool * list float64 :=
  try_solve solve m.

End Solver.

(** The two dicts are kept in insertion order. *)
Definition calculate_chemistry_solution (x : list Q) (materials_data : value)
    (materials elements : list string) (heat_weight : Q)
  : result (list (string * Q) * list (string * Q)) :=
  foldM (fun '(solution_chemistry_min, solution_chemistry_max) e =>
           lo <- mix_value x materials_data materials "min" e heat_weight ;;
           hi <- mix_value x materials_data materials "max" e heat_weight ;;
           Ok ((solution_chemistry_min ++ [(e, lo)])%list,
               (solution_chemistry_max ++ [(e, hi)])%list))
        elements ([], []).

Definition tolerance : Q := 1 # 1000000.

(** The status column of one row of [print_chemistry_table]. *)
Definition chemistry_status (min_spec max_spec : value)
    (est_min_normalized est_max_normalized : Q) : result string :=
  min_spec_normalized <- normalize_chemistry_value min_spec ;;
  max_spec_normalized <- normalize_chemistry_value max_spec ;;
  let min_ok := Qle_bool (min_spec_normalized - tolerance) est_min_normalized in
  let max_ok := Qle_bool est_max_normalized (max_spec_normalized + tolerance) in
  Ok (if min_ok && max_ok then "OK" else "Out").

(** The rows [print_chemistry_table] adds: element and status (the numeric
    columns are formatted with [:.3f], which needs numbers). *)
Definition print_chemistry_table (elements : list string)
    (charge_min charge_max : value)
    (solution_chemistry_min solution_chemistry_max : list (string * Q))
  : result (list (string * string)) :=
  mapM (fun element =>
          min_spec <- getitem charge_min element ;;
          max_spec <- getitem charge_max element ;;
          est_min <- match assoc element solution_chemistry_min with
                     | Some v => Ok v | None => Raise KeyError end ;;
          est_max <- match assoc element solution_chemistry_max with
                     | Some v => Ok v | None => Raise KeyError end ;;
          status <- chemistry_status min_spec max_spec est_min est_max ;;
          _ <- as_num min_spec ;;
          _ <- as_num max_spec ;;
          Ok (element, status))
       elements.

End EafChargeGekko.

(** ** [calculo_carga_eaf.py] *)

Module CalculoCargaEaf.

Definition normalize_chemistry_value := Common.normalize_chemistry_value.

(** Lines 22-51 of [calcular_adicion_optima]: the model handed to the
    solver. *)
Definition adicion_constraints (materials_data alloy_info : value)
    (colada_peso : Q) (colada_quimica : value) (materials : list string)
    (x : list expr) (total_peso : expr) (m : model) (e : string)
  : result model :=
  measured <- dict_get colada_quimica e (VNum 0) ;;
  measured <- as_num measured ;;
  lo_terms <- mix_terms x materials_data materials "min" e ;;
  min_mix <- div (add (EConst (measured * colada_peso)) (sum lo_terms))
                 total_peso ;;
  measured <- dict_get colada_quimica e (VNum 0) ;;
  measured <- as_num measured ;;
  hi_terms <- mix_terms x materials_data materials "max" e ;;
  max_mix <- div (add (EConst (measured * colada_peso)) (sum hi_terms))
                 total_peso ;;
  amax <- getitem alloy_info "max" ;;
  cmax <- getitem amax e ;;
  hi <- normalize_chemistry_value cmax ;;
  let m := Equation m (at_most max_mix (EConst hi)) in
  amin <- getitem alloy_info "min" ;;
  cmin <- getitem amin e ;;
  lo <- normalize_chemistry_value cmin ;;
  Ok (Equation m (at_least min_mix (EConst lo))).

Definition adicion_model (materials_data alloy_info : value)
    (colada_peso : Q) (colada_quimica : value) : result (model * list expr) :=
  materials <- keys materials_data ;;
  amin <- getitem alloy_info "min" ;;
  elements <- keys amin ;;
  cost <- mapM (fun m => material_field materials_data m "cost") materials ;;
  stock <- mapM (fun m => material_field materials_data m "stock") materials ;;
  let m := GEKKO in
  '(m, x) <- declare_variables m
               (repeat (Float64.of_Q 0.001) (List.length materials)) stock
               (List.length materials) ;;
  let total_peso := add (EConst colada_peso) (sum x) in
  m <- foldM (adicion_constraints materials_data alloy_info colada_peso
                colada_quimica materials x total_peso) elements m ;;
  terms <- cost_terms x cost (List.length materials) ;;
  Ok (Obj m (sum terms), x).

Definition nominal_composition : list (string * Q) :=
  [ ("fierro_Primera", 0.2);
    ("Retornos_CM", 0.35);
    ("chatarra_CM", 0.44) ].

Definition nominal_amount (heat_weight : Q) (material : string) : float64 :=
  match assoc material nominal_composition with
  | Some share => Float64.mul (Float64.of_Q share) (Float64.of_Q heat_weight)
  | None => Float64.zero
  end.

Definition solucion_inicial (heat_weight : Q) (materials_data : value)
  : result (list float64) :=
  materials <- keys materials_data ;;
  let initial_x := map (nominal_amount heat_weight) materials in
  let total_weight := Float64.sum initial_x in
  scale_factor <- Float64.truediv (Float64.of_Q heat_weight) total_weight ;;
  Ok (map (fun x => Float64.mul x scale_factor) initial_x).

Definition crear_modelelo (materials_data alloy_info : value)
    (heat_weight : Q) : result (model * list expr) :=
  charge_model (fun md _ _ _ _ _ _ hw => solucion_inicial hw md)
               materials_data alloy_info heat_weight.

Section Solver.
Variable solve : model -> solve_outcome.

(** [x = m.solve(disp=True)]: GEKKO's [solve] returns [None], and an
    unsuccessful solve raises. *)
Definition calcular_adicion_optima (materials_data alloy_info : value)
    (colada_peso : Q) (colada_quimica : value) : result (model * value) :=
  '(m, x) <- adicion_model materials_data alloy_info colada_peso
                           colada_quimica ;;
  match solve m with
  | Solved _ => Ok (m, VNone)
  | Failed _ => Raise SolverException
  end.

Definition calcular_carga (materials_data alloy_info : value)
    (charge_weight : Q) : result (bool * list float64) :=
  '(m, x) <- crear_modelelo materials_data alloy_info charge_weight ;;
  Ok (try_solve solve m).

End Solver.

End CalculoCargaEaf.

(** ** [reports.py] *)

Module Reports.

(** [x[i].value[0] * materials_data[elementos[i]]['chemistry'][side].get(e, 0)]
    summed over [range(len(elementos))] and divided by [peso]. *)
Definition quimica (x : list Q) (materials_data : value)
    (elementos : list string) (side e : string) (peso : Q) : result Q :=
  terms <- mapM (fun i =>
                   v <- index x i ;;
                   name <- index elementos i ;;
                   mat <- getitem materials_data name ;;
                   chem <- getitem mat "chemistry" ;;
                   bound <- getitem chem side ;;
                   c <- dict_get bound e (VNum 0) ;;
                   c <- as_num c ;;
                   Ok (v * c))
                (seq 0 (List.length elementos)) ;;
  truediv (Py.sum terms) peso.

Definition calcular_quimica_solucion (x : list Q) (materials_data : value)
  : result (list (string * Q) * list (string * Q)) :=
  chem <- getitem materials_data "chemistry" ;;
  charge_min <- getitem chem "min" ;;
  elementos <- keys charge_min ;;
  let peso := Py.sum x in
  foldM (fun '(solution_chemistry_min, solution_chemistry_max) e =>
           lo <- quimica x materials_data elementos "min" e peso ;;
           hi <- quimica x materials_data elementos "max" e peso ;;
           Ok ((solution_chemistry_min ++ [(e, lo)])%list,
               (solution_chemistry_max ++ [(e, hi)])%list))
        elementos ([], []).

(** One bound of [print_table_resultados], in kg:
    [float(raw.replace('%','')) / 100 * peso] for text with a percent sign,
    [float(raw) * peso] otherwise. *)
Definition bound_kg (raw : value) (peso : Q) : result Q :=
  match raw with
  | VStr s =>
      if has_percent s then
        q <- float_of_string (remove_percent s) ;; Ok (q / 100 * peso)
      else
        q <- float raw ;; Ok (q * peso)
  | _ => q <- float raw ;; Ok (q * peso)
  end.

Record material_row : Type := mkRow {
  row_material : string;
  row_min : Q;
  row_value : Q;
  row_max : Q;
  row_cost : Q;
  row_percentage : Q
}.

Definition print_table_resultados (x : list Q) (material_info alloy_info : value)
  : result (list material_row) :=
  materials <- keys material_info ;;
  vals <- mapM (index x) (seq 0 (List.length materials)) ;;
  let peso := Py.sum vals in
  mapM (fun i =>
          mat <- index materials i ;;
          min_raw <- material_field material_info mat "min" ;;
          max_raw <- material_field material_info mat "max" ;;
          min_val <- bound_kg min_raw peso ;;
          max_val <- bound_kg max_raw peso ;;
          val <- index x i ;;
          let percentage := if gt peso 0 then (val / peso) * 100 else 0 in
          c <- material_field material_info mat "cost" ;;
          c <- as_num c ;;
          Ok (mkRow mat min_val val max_val (c * val) percentage))
       (seq 0 (List.length materials)).

Definition tolerance : Q := 1 # 1000000.

(** The status column of one row of [print_quimica_carga]. *)
Definition quimica_status (min_spec max_spec est_min est_max : Q) : string :=
  let min_ok := Qle_bool (min_spec - tolerance) est_min in
  let max_ok := Qle_bool est_max (max_spec + tolerance) in
  if min_ok && max_ok then "OK" else "Out".

Definition print_quimica_carga (x : list Q) (materials_data alloy_data : value)
  : result (list (string * string)) :=
  chem <- getitem alloy_data "chemistry" ;;
  charge_min <- getitem chem "min" ;;
  elements <- keys charge_min ;;
  charge_max <- getitem chem "max" ;;
  '(solution_chemistry_min, solution_chemistry_max) <-
     calcular_quimica_solucion x materials_data ;;
  mapM (fun element =>
          min_spec <- getitem charge_min element ;;
          max_spec <- getitem charge_max element ;;
          est_min <- match assoc element solution_chemistry_min with
                     | Some v => Ok v | None => Raise KeyError end ;;
          est_max <- match assoc element solution_chemistry_max with
                     | Some v => Ok v | None => Raise KeyError end ;;
          min_spec <- as_num min_spec ;;
          max_spec <- as_num max_spec ;;
          Ok (element, quimica_status min_spec max_spec est_min est_max))
       elements.

End Reports.

(** ** [charge_gekko_example.py]: the script's model, for a loaded catalog
    and the loaded [alloys_data['cm1']['charge']] *)

Module ChargeGekkoExample.

Definition heat_weight : Q := 20.

(** [x[i]*materials_data[materials[i]]['chemestry'][side].get(e,0)] *)
Definition mix_terms (x : list expr) (materials_data : value)
    (materials : list string) (side e : string) : result (list expr) :=
  mapM (fun i =>
          xi <- index x i ;;
          mi <- index materials i ;;
          mat <- getitem materials_data mi ;;
          chem <- getitem mat "chemestry" ;;
          bound <- getitem chem side ;;
          c <- dict_get bound e (VNum 0) ;;
          c <- as_num c ;;
          Ok (mul xi (EConst c)))
       (seq 0 (List.length materials)).

Definition chemistry_constraints (materials_data : value)
    (materials : list string) (charge_min charge_max : value)
    (x : list expr) (m : model) (e : string) : result model :=
  lo_terms <- mix_terms x materials_data materials "min" e ;;
  min_mix <- div (sum lo_terms) (EConst heat_weight) ;;
  hi_terms <- mix_terms x materials_data materials "max" e ;;
  max_mix <- div (sum hi_terms) (EConst heat_weight) ;;
  cmin <- getitem charge_min e ;;
  lo <- as_num cmin ;;
  let m := Equation m (at_least min_mix (EConst lo)) in
  cmax <- getitem charge_max e ;;
  hi <- as_num cmax ;;
  let m := Equation m (at_most min_mix (EConst hi)) in
  cmin <- getitem charge_min e ;;
  lo <- as_num cmin ;;
  let m := Equation m (at_least max_mix (EConst lo)) in
  cmax <- getitem charge_max e ;;
  hi <- as_num cmax ;;
  Ok (Equation m (at_most max_mix (EConst hi))).

Definition script_model (materials_data charge_limits : value)
  : result (model * list expr) :=
  charge_min <- getitem charge_limits "min" ;;
  charge_max <- getitem charge_limits "max" ;;
  materials <- keys materials_data ;;
  elements <- keys charge_min ;;
  cost <- mapM (fun m => material_field materials_data m "cost") materials ;;
  stock <- mapM (fun m => material_field materials_data m "stock") materials ;;
  mat_min <- mapM (fun m => material_fraction materials_data m "min") materials ;;
  mat_max <- mapM (fun m => material_fraction materials_data m "max") materials ;;
  let m := GEKKO in
  '(m, x) <-
     foldM (fun '(m, x) i =>
              v <- Float64.truediv (Float64.of_Q heat_weight)
                     (Float64.of_Z (Z.of_nat (List.length materials))) ;;
              s <- index stock i ;;
              ub <- upper_bound s ;;
              let '(m', xi) := Var m v (Some 0) ub in
              Ok (m', (x ++ [xi])%list))
           (seq 0 (List.length materials)) (m, []) ;;
  let m := Equation m (equal (sum x) (EConst heat_weight)) in
  m <- foldM (chemistry_constraints materials_data materials
                charge_min charge_max x) elements m ;;
  m <- foldM (fraction_constraints heat_weight x mat_min mat_max)
             (seq 0 (List.length materials)) m ;;
  terms <- cost_terms x cost (List.length materials) ;;
  Ok (Obj m (sum terms), x).

End ChargeGekkoExample.

(** ** Definitions used to state the properties *)

(** [sum_i x_i * c_i] as the specification writes it. *)
Definition weighted_sum (xs cs : list Q) : Q :=
  fold_right (fun p acc => fst p * snd p + acc) 0 (combine xs cs).

(** The mix of the charge builder: [sum_i x_i * c_i / target_weight]. *)
Definition charge_mix (xs cs : list Q) (target_weight : Q) : Q :=
  weighted_sum xs cs / target_weight.

(** The mix of the addition builder, from a starting term [base] (the
    measured chemistry times the current weight):
    [(base + sum_i x_i * c_i) / (current_weight + sum_i x_i)]. *)
Definition addition_mix (base current_weight : Q) (xs cs : list Q) : Q :=
  (base + weighted_sum xs cs) / (current_weight + Py.sum xs).

Definition in_range (lo hi v : Q) : Prop := lo <= v /\ v <= hi.

(** The normalized chemistry of every material for one element and side. *)
Definition chemistry_of (materials_data : value) (materials : list string)
    (side e : string) : result (list Q) :=
  mapM (fun mi => material_chemistry materials_data mi side e) materials.

(** The normalized bound of one element. *)
Definition bound_of (bounds : value) (e : string) : result Q :=
  v <- getitem bounds e ;; normalize_chemistry_value v.

(** Several [m.Equation] calls in a row. *)
Definition add_equations (m : model) (b : list equation) : model :=
  {| variables := variables m;
     equations := (equations m ++ b)%list;
     objectives := objectives m |}.

(** The terms [x[i]*c_i] for coefficients read by [coef]. *)
Definition terms_of {A} (coef : A -> result Q) (x : list expr)
    (materials : list A) : result (list expr) :=
  mapM (fun p => c <- coef (snd p) ;; Ok (mul (fst p) (EConst c)))
       (combine x materials).

(** The variables [x[0]], ..., [x[n-1]] of a model. *)
Definition vars (n : nat) : list expr := map EVar (seq 0 n).

(** The four equations one pass of the chemistry loop appends, for
    coefficients read by [coef side material] and bounds read by [bound]. *)
Definition range_block (heat_weight : Q)
    (coef : string -> string -> result Q) (bound : value -> result Q)
    (materials : list string) (charge_min charge_max : value)
    (x : list expr) (e : string) : result (list equation) :=
  lo_terms <- terms_of (coef "min") x materials ;;
  min_mix <- div (sum lo_terms) (EConst heat_weight) ;;
  hi_terms <- terms_of (coef "max") x materials ;;
  max_mix <- div (sum hi_terms) (EConst heat_weight) ;;
  cmin <- getitem charge_min e ;;
  lo <- bound cmin ;;
  cmax <- getitem charge_max e ;;
  hi <- bound cmax ;;
  Ok [ at_least min_mix (EConst lo); at_most min_mix (EConst hi);
       at_least max_mix (EConst lo); at_most max_mix (EConst hi) ].

(** A block of equations is the chemistry requirement of one element:
    four equations, on two expressions whose values are the low and the high
    mix, which hold together exactly when both mixes are in [[lo, hi]]. *)
Definition four_range_constraints (n : nat) (target_weight lo hi : Q)
    (low high : list Q) (block : list equation) : Prop :=
  exists min_mix max_mix,
    block = [ at_least min_mix (EConst lo); at_most min_mix (EConst hi);
              at_least max_mix (EConst lo); at_most max_mix (EConst hi) ] /\
    forall xs, List.length xs = n -> ~ target_weight == 0 ->
      (exists v, eval xs min_mix = Some v /\
                 v == charge_mix xs low target_weight) /\
      (exists w, eval xs max_mix = Some w /\
                 w == charge_mix xs high target_weight) /\
      (forallb (holds xs) block = true <->
       in_range lo hi (charge_mix xs low target_weight) /\
       in_range lo hi (charge_mix xs high target_weight)).

(** The two equations one pass of the fraction loop appends. *)
Definition fraction_block (heat_weight : Q) (x : list expr)
    (mat_min mat_max : list Q) (i : nat) : result (list equation) :=
  xi <- index x i ;;
  share <- div xi (EConst heat_weight) ;;
  lo <- index mat_min i ;;
  hi <- index mat_max i ;;
  Ok [ at_least share (EConst lo); at_most share (EConst hi) ].

(** An equation on a plain sum of variables (total mass, category floor or
    ceiling), and an equation on one variable's share of the target. *)
Definition on_sum_of_variables (q : equation) : Prop :=
  exists indices, eq_lhs q = sum (map EVar indices).

Definition on_share_of_variable (heat_weight : Q) (q : equation) : Prop :=
  exists i, eq_lhs q = EDiv (EVar i) (EConst heat_weight).

(** [materials_data[material]['chemestry'][side].get(e, 0)], as the example
    script reads a chemistry value: unnormalized, and under its own key. *)
Definition raw_chemistry (materials_data : value) (material side e : string)
  : result Q :=
  mat <- getitem materials_data material ;;
  chem <- getitem mat "chemestry" ;;
  bound <- getitem chem side ;;
  c <- dict_get bound e (VNum 0) ;;
  as_num c.

(** The chemistry requirement of element [e], for chemistry values read by
    [coef side material] and bounds read by [bound]: [block] is the four
    range constraints on the low and the high mix of [e]. *)
Definition range_requirement (coef : string -> string -> result Q)
    (bound : value -> result Q) (materials : list string)
    (charge_min charge_max : value) (target_weight : Q)
    (e : string) (block : list equation) : Prop :=
  exists lo hi low high,
    (v <- getitem charge_min e ;; bound v) = Ok lo /\
    (v <- getitem charge_max e ;; bound v) = Ok hi /\
    mapM (coef "min") materials = Ok low /\
    mapM (coef "max") materials = Ok high /\
    four_range_constraints (List.length materials) target_weight
                           lo hi low high block.

(** The shape of a charge-design model: total mass and category equations
    on plain sums of variables, then one block of four range constraints per
    element of the specification, then the per-material fraction equations. *)
Definition charge_design_model
    (coef : string -> string -> string -> result Q)
    (bound : value -> result Q)
    (materials_data charge_info : value) (target_weight : Q)
    (m : model) (x : list expr) : Prop :=
  exists charge_min charge_max materials elements
         mass_and_category blocks fractions,
    getitem charge_info "min" = Ok charge_min /\
    getitem charge_info "max" = Ok charge_max /\
    keys materials_data = Ok materials /\
    keys charge_min = Ok elements /\
    x = vars (List.length materials) /\
    equations m = (mass_and_category ++ List.concat blocks ++ fractions)%list /\
    Forall on_sum_of_variables mass_and_category /\
    Forall (on_share_of_variable target_weight) fractions /\
    Forall2 (fun e block =>
               range_requirement (coef e) bound materials charge_min charge_max
                                 target_weight e block)
            elements blocks.

(** ** Fixtures: a catalog with two materials of the nominal recipe, a
    catalog with none, and a catalog holding only [carbon]. *)

Definition material (cost stock lo hi : value) (type : string)
    (chem_min chem_max : list (string * value)) : value :=
  VDict [ ("cost", cost); ("stock", stock); ("min", lo); ("max", hi);
          ("type", VStr type);
          ("chemistry", VDict [ ("min", VDict chem_min);
                                ("max", VDict chem_max) ]) ].

Definition catalog_recipe : value :=
  VDict [ ("fierro_Primera",
           material (VNum 2) (VNum 100) (VNum 0) (VStr "100%") "Acero"
                    [("C", VNum 0.5)] [("C", VNum 0.6)]);
          ("Retornos_CM",
           material (VNum 1) (VNum 100) (VNum 0) (VStr "100%") "returns"
                    [("C", VNum 0.1)] [("C", VNum 0.2)]);
          ("cal",
           material (VNum 3) (VNum 10) (VNum 0) (VNum 100) "fundente"
                    [] []) ].

Definition catalog_foreign : value :=
  VDict [ ("A", material (VNum 2) (VNum 100) (VNum 0) (VNum 100) "steel"
                         [("C", VNum 0.5)] [("C", VNum 0.6)]);
          ("B", material (VNum 1) (VNum 100) (VNum 0) (VNum 100) "returns"
                         [("C", VNum 0.1)] [("C", VNum 0.2)]) ].

Definition catalog_carbon : value :=
  VDict [ ("carbon", material (VNum 5) VNone (VNum 0) (VNum 100) "aditivo"
                              [("C", VNum 99)] [("C", VNum 100)]) ].

Definition charge_spec : value :=
  VDict [ ("min", VDict [("C", VNum 0.3)]);
          ("max", VDict [("C", VNum 0.4)]);
          ("min_acero_pct", VNum 0.5) ].

(** The final bounds and the measured heat of [main] in
    [calculo_carga_eaf.py], for carbon: percent values. *)
Definition final_spec : value :=
  VDict [ ("min", VDict [("C", VNum 0.28)]);
          ("max", VDict [("C", VNum 0.32)]) ].

Definition colada_quimica_percent : value := VDict [("C", VNum 0.30)].

(** A catalog whose fraction bounds are a bare number and a percent text. *)
Definition catalog_bare : value :=
  VDict [ ("fierro_Primera",
           material (VNum 2) (VNum 100) (VNum 5) (VStr "50%") "acero"
                    [("C", VNum 0.5)] [("C", VNum 0.6)]) ].

(** Data on which [calcular_quimica_solucion] of [reports.py] returns: the
    catalog holds a ['chemistry'] entry, and a material named as the element
    whose estimated range is 0.35 % to 0.40005 % C. *)
Definition catalog_by_element : value :=
  VDict [ ("chemistry", VDict [ ("min", VDict [("C", VNum 0.3)]);
                                ("max", VDict [("C", VNum 0.4)]) ]);
          ("C", VDict [ ("chemistry",
                         VDict [ ("min", VDict [("C", VNum 0.35)]);
                                 ("max", VDict [("C", VNum 0.40005)]) ]) ]) ].

Definition alloy_report : value :=
  VDict [ ("chemistry", VDict [ ("min", VDict [("C", VNum 0.3)]);
                                ("max", VDict [("C", VNum 0.4)]) ]) ].

(** A solver that fails on every model, stopping at the iterate [it]. *)
Definition stops_at (it : list Q) (m : model) : solve_outcome :=
  Failed (map Float64.of_Q it).

(** A catalog holding the three materials of the nominal recipe. *)
Definition catalog_full : value :=
  VDict [ ("fierro_Primera",
           material (VNum 2) (VNum 20000) (VNum 0) (VNum 100) "acero"
                    [("C", VNum 0.5)] [("C", VNum 0.6)]);
          ("Retornos_CM",
           material (VNum 1) (VNum 20000) (VNum 0) (VNum 100) "returns"
                    [("C", VNum 0.1)] [("C", VNum 0.2)]);
          ("chatarra_CM",
           material (VNum 1.5) (VNum 20000) (VNum 0) (VNum 100) "chatarra"
                    [("C", VNum 0.2)] [("C", VNum 0.3)]) ].

(** A target range for carbon narrower than the chemistry range of every
    material of [catalog_full]. *)
Definition spec_narrow : value :=
  VDict [ ("min", VDict [("C", VNum 0.45)]);
          ("max", VDict [("C", VNum 0.46)]);
          ("min_acero_pct", VNum 0.5) ].

(** The smallest positive float, [5e-324]. *)
Definition tiny : Q := 1 # (2 ^ 1074)%positive.

(** A chemistry mapping that may omit elements or map them to [None]. *)
Definition partial_chemistry (materials_data : value) (material side : string)
  : Prop :=
  exists mat chem d,
    getitem materials_data material = Ok mat /\
    getitem mat "chemistry" = Ok chem /\
    getitem chem side = Ok (VDict d) /\
    Forall (fun kv => snd kv = VNone \/ exists q, snd kv = VNum q) d.

(** A computation returns a number equal to [q]. *)
Definition yields (r : result Q) (q : Q) : Prop :=
  exists v, r = Ok v /\ v == q.

(** The two equations one pass of the addition loop appends. *)
Definition addition_block (materials_data alloy_info : value)
    (colada_peso : Q) (colada_quimica : value) (materials : list string)
    (x : list expr) (total_peso : expr) (e : string)
  : result (list equation) :=
  measured <- dict_get colada_quimica e (VNum 0) ;;
  measured <- as_num measured ;;
  lo_terms <- terms_of (fun mi => material_chemistry materials_data mi "min" e)
                       x materials ;;
  min_mix <- div (add (EConst (measured * colada_peso)) (sum lo_terms))
                 total_peso ;;
  hi_terms <- terms_of (fun mi => material_chemistry materials_data mi "max" e)
                       x materials ;;
  max_mix <- div (add (EConst (measured * colada_peso)) (sum hi_terms))
                 total_peso ;;
  amax <- getitem alloy_info "max" ;;
  cmax <- getitem amax e ;;
  hi <- normalize_chemistry_value cmax ;;
  amin <- getitem alloy_info "min" ;;
  cmin <- getitem amin e ;;
  lo <- normalize_chemistry_value cmin ;;
  Ok [ at_most max_mix (EConst hi); at_least min_mix (EConst lo) ].

(** A block of equations is the requirement of the addition model for one
    element: the high mix at most [hi], the low mix at least [lo], and
    nothing else. *)
Definition two_tightening_constraints (n : nat) (base current_weight lo hi : Q)
    (low high : list Q) (block : list equation) : Prop :=
  exists min_mix max_mix,
    block = [ at_most max_mix (EConst hi); at_least min_mix (EConst lo) ] /\
    forall xs, List.length xs = n -> ~ current_weight + Py.sum xs == 0 ->
      (exists v, eval xs min_mix = Some v /\
                 v == addition_mix base current_weight xs low) /\
      (exists w, eval xs max_mix = Some w /\
                 w == addition_mix base current_weight xs high) /\
      (forallb (holds xs) block = true <->
       lo <= addition_mix base current_weight xs low /\
       addition_mix base current_weight xs high <= hi).

(** The shape of an addition model, with the starting term of element [e]
    being [measured e * colada_peso] for the number [measured e] that
    [colada_quimica.get(e, 0)] returns. *)
Definition addition_design_model (materials_data alloy_info : value)
    (colada_peso : Q) (colada_quimica : value)
    (m : model) (x : list expr) : Prop :=
  exists materials amin elements blocks,
    keys materials_data = Ok materials /\
    getitem alloy_info "min" = Ok amin /\
    keys amin = Ok elements /\
    x = vars (List.length materials) /\
    equations m = List.concat blocks /\
    Forall2 (fun e block =>
               exists measured amax lo hi low high,
                 (v <- dict_get colada_quimica e (VNum 0) ;; as_num v)
                 = Ok measured /\
                 getitem alloy_info "max" = Ok amax /\
                 bound_of amin e = Ok lo /\
                 bound_of amax e = Ok hi /\
                 chemistry_of materials_data materials "min" e = Ok low /\
                 chemistry_of materials_data materials "max" e = Ok high /\
                 two_tightening_constraints (List.length materials)
                   (measured * colada_peso) colada_peso lo hi low high block)
            elements blocks.

(** The unit costs of the catalog, as the objective reads them. *)
Definition unit_costs (materials_data : value) (materials : list string)
  : result (list Q) :=
  mapM (fun mi => v <- material_field materials_data mi "cost" ;; as_num v)
       materials.

(** Follows the specification's words: the measured chemistry of the
    current heat is a weight fraction, so a measured percent value enters
    the mix normalized like every other chemistry value. *)
Definition spec_addition_mix (measured_percent : value)
    (current_weight : Q) (xs cs : list Q) : result Q :=
  measured <- normalize_chemistry_value measured_percent ;;
  Ok (addition_mix (measured * current_weight) current_weight xs cs).

(** [materials_data[name].get('type', '').lower() == tag], false where the
    lookup raises. *)
Definition has_type (materials_data : value) (tag name : string) : bool :=
  match getitem materials_data name with
  | Ok mat =>
      match dict_get mat "type" (VStr "") with
      | Ok (VStr s) => String.eqb (lower s) tag
      | _ => false
      end
  | Raise _ => false
  end.

(** The positions of the materials of a type. *)
Definition positions_of_type (materials_data : value)
    (materials : list string) (tag : string) : list nat :=
  filter (fun i => match nth_error materials i with
                   | Some name => has_type materials_data tag name
                   | None => false
                   end)
         (seq 0 (List.length materials)).

(** The equation of the category floor, if any. *)
Definition floor_block (n : nat) (heat_weight : Q) (indices : list nat)
    (pct : value) : result (list equation) :=
  match indices with
  | [] => Ok []
  | _ =>
      pct <- as_num pct ;;
      if gt pct 0 then
        xs <- pick (vars n) indices ;;
        Ok [at_least (sum xs) (EConst (pct * heat_weight))]
      else Ok []
  end.

(** The equation of the category ceiling, if any. *)
Definition ceiling_block (n : nat) (heat_weight : Q) (indices : list nat)
    (cap : value) : result (list equation) :=
  match indices, cap with
  | [], _ => Ok []
  | _, VNone => Ok []
  | _, _ =>
      cap <- as_num cap ;;
      xs <- pick (vars n) indices ;;
      Ok [at_most (sum xs) (EConst (cap * heat_weight))]
  end.

(** A declared variable: its initial value, its lower bound 0 and the upper
    bound read from the stock. *)
Definition declared (valf : nat -> result float64) (stock : list value)
    (i : nat) (v : gvar) : Prop :=
  valf i = Ok (gv_value v) /\ gv_lb v = Some 0 /\
  exists s, index stock i = Ok s /\ upper_bound s = Ok (gv_ub v).

(** Everything [charge_model] reads and builds, in order. *)
Inductive charge_anatomy
    (seed : value -> value -> value -> list string -> list string ->
            list Q -> list Q -> Q -> result (list float64))
    (md ci : value) (hw : Q) (m : model) (x : list expr) : Prop :=
| Anatomy (cmin cmax pct cap : value) (materials elements : list string)
    (cost stock : list value) (mat_min mat_max : list Q)
    (initial : list float64)
    (acero rets : list nat) (floor ceiling : list equation)
    (blocks fblocks : list (list equation)) (terms : list expr)
    (Hcmin : getitem ci "min" = Ok cmin)
    (Hcmax : getitem ci "max" = Ok cmax)
    (Hpct : dict_get ci "min_acero_pct" (VNum 0.0) = Ok pct)
    (Hcap : dict_get ci "max_returns" VNone = Ok cap)
    (Hmaterials : keys md = Ok materials)
    (Helements : keys cmin = Ok elements)
    (Hcost : mapM (fun mi => material_field md mi "cost") materials = Ok cost)
    (Hstock : mapM (fun mi => material_field md mi "stock") materials = Ok stock)
    (Hmin : mapM (fun mi => material_fraction md mi "min") materials = Ok mat_min)
    (Hmax : mapM (fun mi => material_fraction md mi "max") materials = Ok mat_max)
    (Hseed : seed md cmin cmax materials elements mat_min mat_max hw = Ok initial)
    (Hx : x = vars (List.length materials))
    (Hvars : Forall2 (declared (index initial) stock)
                     (seq 0 (List.length materials)) (variables m))
    (Hacero : indices_of_type md materials "acero" = Ok acero)
    (Hrets : indices_of_type md materials "returns" = Ok rets)
    (Hfloor : floor_block (List.length materials) hw acero pct = Ok floor)
    (Hceiling : ceiling_block (List.length materials) hw rets cap = Ok ceiling)
    (Hblocks : mapM (fun e =>
                       range_block hw
                         (fun side mi => material_chemistry md mi side e)
                         normalize_chemistry_value materials cmin cmax
                         (vars (List.length materials)) e)
                    elements = Ok blocks)
    (Hfblocks : mapM (fraction_block hw (vars (List.length materials))
                                     mat_min mat_max)
                     (seq 0 (List.length materials)) = Ok fblocks)
    (Hterms : cost_terms (vars (List.length materials)) cost
                         (List.length materials) = Ok terms)
    (Hequations :
       equations m
       = ([equal (sum (vars (List.length materials))) (EConst hw)]
            ++ floor ++ ceiling ++ List.concat blocks
            ++ List.concat fblocks)%list)
    (Hobjectives : objectives m = [sum terms]).

(** [xs[i]], 0 outside the list. *)
Definition entry (xs : list Q) (i : nat) : Q := nth i xs 0.

(** [m] and [x] are what one of the two charge builders returned. *)
Definition built_charge_model (md ci : value) (hw : Q)
    (m : model) (x : list expr) : Prop :=
  EafChargeGekko.create_optimization_model md ci hw = Ok (m, x) \/
  CalculoCargaEaf.crear_modelelo md ci hw = Ok (m, x).

(** The stock caps of the catalog, where all of them are numbers. *)
Definition stock_caps (materials_data : value) (materials : list string)
  : result (list Q) :=
  mapM (fun mi => v <- material_field materials_data mi "stock" ;; as_num v)
       materials.

(** A catalog whose first material has its fraction bounds inverted. *)
Definition catalog_inverted : value :=
  VDict [ ("fierro_Primera",
           material (VNum 2) (VNum 100) (VStr "60%") (VStr "40%") "acero"
                    [("C", VNum 0.3)] [("C", VNum 0.4)]);
          ("Retornos_CM",
           material (VNum 1) (VNum 100) (VNum 0) (VNum 100) "returns"
                    [("C", VNum 0.3)] [("C", VNum 0.4)]) ].

(** Whether the category floor and the category ceiling are enforced. *)
Definition floor_applies (acero : list nat) (pct : value) : bool :=
  match acero, pct with
  | _ :: _, VNum p => gt p 0
  | _, _ => false
  end.

Definition ceiling_applies (rets : list nat) (cap : value) : bool :=
  match rets, cap with
  | _ :: _, VNum _ => true
  | _, _ => false
  end.

Definition count (b : bool) : nat := if b then 1%nat else 0%nat.

(** An expression has a value equal to [q]. *)
Definition value_is (o : option Q) (q : Q) : bool :=
  match o with
  | Some v => Qeq_bool v q
  | None => false
  end.

(** The all-zero assignment of [n] variables. *)
Definition zeros (n : nat) : list Q := repeat 0 n.

(** The model and the variables a builder returned. *)
Definition model_of (r : result (model * list expr)) : model :=
  match r with
  | Ok (m, _) => m
  | Raise _ => GEKKO
  end.

Definition variables_of (r : result (model * list expr)) : list expr :=
  match r with
  | Ok (_, x) => x
  | Raise _ => []
  end.

(** * Properties *)

Example float_of_string_5pct :
  float_of_str_without_percent (VStr "5%") = Ok (inject_Z 5).
Proof. reflexivity. Qed.

Example float_of_string_12_5 :
  match float_of_str_without_percent (VStr " 12.5%") with
  | Ok q => Qeq_bool q 12.5
  | Raise _ => false
  end = true.
Proof. reflexivity. Qed.

Example float_of_string_bad :
  float_of_str_without_percent (VStr "abc") = Raise ValueError.
Proof. reflexivity. Qed.

(** ** The error monad and the loops *)

Lemma bind_ok {A B} (c : result A) (k : A -> result B) (b : B) :
  bind c k = Ok b -> exists a, c = Ok a /\ k a = Ok b.
Proof.
  destruct c as [a|e]; simpl; intros H; [eauto | discriminate].
Qed.

Tactic Notation "bind_inv" hyp(H) :=
  let a := fresh "r" in
  let Ha := fresh "E" in
  apply bind_ok in H; destruct H as (a & Ha & H).

Tactic Notation "bind_inv" hyp(H) "as" ident(a) ident(Ha) :=
  apply bind_ok in H; destruct H as (a & Ha & H).

Lemma mapM_length {A B} (f : A -> result B) (l : list A) (bs : list B) :
  mapM f l = Ok bs -> List.length bs = List.length l.
Proof.
  revert bs; induction l as [|a l IH]; simpl; intros bs H.
  - now inversion H.
  - bind_inv H. bind_inv H. inversion H; subst. simpl. f_equal. eauto.
Qed.

Lemma mapM_In {A B} (f : A -> result B) (l : list A) (bs : list B) (a : A) :
  mapM f l = Ok bs -> In a l -> exists b, f a = Ok b.
Proof.
  revert bs; induction l as [|a' l IH]; simpl; intros bs H Hin; [tauto|].
  bind_inv H. bind_inv H. destruct Hin as [->|Hin]; eauto.
Qed.

Lemma mapM_map {A B C} (f : B -> result C) (g : A -> B) (l : list A) :
  mapM f (map g l) = mapM (fun a => f (g a)) l.
Proof.
  induction l as [|a l IH]; simpl; [reflexivity|]. now rewrite IH.
Qed.

Lemma mapM_ext {A B} (f g : A -> result B) (l : list A) :
  (forall a, In a l -> f a = g a) -> mapM f l = mapM g l.
Proof.
  induction l as [|a l IH]; simpl; intros H; [reflexivity|].
  rewrite H by auto. rewrite IH by auto. reflexivity.
Qed.

(** A comprehension over [range(len(ms))] that reads [xs[i]] and [ms[i]]
    walks the two lists side by side. *)
Lemma mapM_range_zip {A B C} (f : A -> B -> result C)
    (xs : list A) (ms : list B) :
  List.length xs = List.length ms ->
  mapM (fun i => x <- index xs i ;; m <- index ms i ;; f x m)
       (seq 0 (List.length ms))
  = mapM (fun p => f (fst p) (snd p)) (combine xs ms).
Proof.
  revert xs; induction ms as [|m ms IH]; intros [|x xs] Hlen;
    simpl in *; try discriminate; [reflexivity|].
  rewrite <- seq_shift, mapM_map.
  rewrite <- (IH xs) by lia. reflexivity.
Qed.

(** ** Sums *)

Lemma fold_left_Qplus_acc (l : list Q) (a : Q) :
  fold_left Qplus l a == a + fold_left Qplus l 0.
Proof.
  revert a; induction l as [|x l IH]; intros a; simpl; [ring|].
  rewrite (IH (a + x)), (IH (0 + x)). ring.
Qed.

Lemma sum_cons (x : Q) (l : list Q) : Py.sum (x :: l) == x + Py.sum l.
Proof.
  unfold Py.sum; simpl. rewrite fold_left_Qplus_acc. ring.
Qed.

(** ** The seeding heuristic *)

Lemma assoc_In {A} (k : string) (d : list (string * A)) (v : A) :
  assoc k d = Some v -> In (k, v) d.
Proof.
  induction d as [|[k' v'] d IH]; simpl; [discriminate|].
  destruct (String.eqb_spec k k') as [->|Hne]; intros H.
  - inversion H; subst; auto.
  - auto.
Qed.

Lemma assoc_In_keys {A} (k : string) (d : list (string * A)) (v : A) :
  assoc k d = Some v -> In k (map fst d).
Proof.
  intros H. apply assoc_In in H. apply in_map_iff. now exists (k, v).
Qed.

Lemma truediv_nonzero (a b : Q) : ~ b == 0 -> truediv a b = Ok (a / b).
Proof.
  intros Hb. unfold truediv.
  destruct (Qeq_bool b 0) eqn:E; [|reflexivity].
  apply Qeq_bool_eq in E. contradiction.
Qed.

(** Adding zeros, of either sign, to the int 0 leaves the float [0.0]. *)
Lemma float_sum_zeros (l : list float64) :
  Forall (fun a => Float64.is_zero a = true) l ->
  Float64.sum l = Float64.zero.
Proof.
  unfold Float64.sum. induction 1 as [|a l Ha _ IH]; [reflexivity|].
  cbn [fold_left]. destruct a as [s| | |]; try discriminate.
  destruct s; exact IH.
Qed.

Lemma float_truediv_zero (a b : float64) :
  Float64.is_zero b = true -> Float64.truediv a b = Raise ZeroDivisionError.
Proof. intros H. unfold Float64.truediv. now rewrite H. Qed.

Lemma nominal_amount_at_zero (heat_weight : Q) (material : string) :
  heat_weight == 0 ->
  Float64.is_zero (CalculoCargaEaf.nominal_amount heat_weight material) = true /\
  Float64.is_zero (EafChargeGekko.nominal_amount heat_weight material) = true.
Proof.
  intros H.
  assert (Hz : Float64.of_Q heat_weight = Float64.zero).
  { unfold Float64.of_Q. unfold Qeq in H. simpl in H.
    replace (Qnum heat_weight) with 0%Z by lia. reflexivity. }
  unfold CalculoCargaEaf.nominal_amount, EafChargeGekko.nominal_amount.
  rewrite Hz.
  unfold CalculoCargaEaf.nominal_composition,
    EafChargeGekko.nominal_composition. simpl.
  repeat match goal with
         | |- context [String.eqb material ?k] =>
             destruct (String.eqb material k)
         end; split; reflexivity.
Qed.



(** At the weight of [main], 20000, and the three materials of the table
    the seed is 4040.4040404040406, 7070.707070707072 and 8888.888888888889
    kg, and these floats add up to 20000.0. *)
Example seed_of_catalog_full :
  CalculoCargaEaf.solucion_inicial 20000 catalog_full
  = Ok [ Float64.make 8884942446674748 (-41);
         Float64.make 7774324640840405 (-40);
         Float64.make 4886718345671111 (-39) ] /\
  Float64.sum [ Float64.make 8884942446674748 (-41);
                Float64.make 7774324640840405 (-40);
                Float64.make 4886718345671111 (-39) ]
  = Float64.of_Q 20000.
Proof. split; vm_compute; reflexivity. Qed.


Lemma outside_recipe_zero {A} (f : string -> float64)
    (recipe : list (string * A)) (materials : list string) :
  (forall m, assoc m recipe = None -> f m = Float64.zero) ->
  (forall m, In m materials -> mem m recipe = false) ->
  Float64.sum (map f materials) = Float64.zero.
Proof.
  intros Hf Hout. apply float_sum_zeros. apply Forall_forall.
  intros a Ha. apply in_map_iff in Ha. destruct Ha as (m & <- & Hm).
  specialize (Hout m Hm). unfold mem in Hout.
  destruct (assoc m recipe) eqn:E; [discriminate|].
  now rewrite (Hf m E).
Qed.

(** C8 (amended).  When no material of the catalog is in the nominal table,
    seeding raises Python's [ZeroDivisionError] from the rescale
    [heat_weight / total_weight], and returns no seed. *)
Theorem seed_outside_recipe_raises
    (heat_weight : Q) (materials_data : value) (materials : list string)
    (Hkeys : keys materials_data = Ok materials)
    (Hout : forall m, In m materials ->
              mem m EafChargeGekko.nominal_composition = false /\
              mem m CalculoCargaEaf.nominal_composition = false) :
  CalculoCargaEaf.solucion_inicial heat_weight materials_data
  = Raise ZeroDivisionError /\
  (forall charge_min charge_max elements mat_min mat_max,
      EafChargeGekko.calc_initial_solution materials_data charge_min
        charge_max materials elements mat_min mat_max heat_weight
      = Raise ZeroDivisionError).
Proof.
  split.
  - unfold CalculoCargaEaf.solucion_inicial. rewrite Hkeys; simpl.
    rewrite float_truediv_zero; [reflexivity|].
    rewrite (outside_recipe_zero _ CalculoCargaEaf.nominal_composition);
      [reflexivity | | intros m Hm; now apply Hout].
    intros m E. unfold CalculoCargaEaf.nominal_amount. now rewrite E.
  - intros. unfold EafChargeGekko.calc_initial_solution.
    rewrite float_truediv_zero; [reflexivity|].
    rewrite (outside_recipe_zero _ EafChargeGekko.nominal_composition);
      [reflexivity | | intros m Hm; now apply Hout].
    intros m E. unfold EafChargeGekko.nominal_amount. now rewrite E.
Qed.

Lemma seed_outside_recipe_raises_witness :
  CalculoCargaEaf.solucion_inicial 20000 catalog_foreign
  = Raise ZeroDivisionError.
Proof.
  refine (proj1 (seed_outside_recipe_raises 20000 catalog_foreign ["A"; "B"]
                   _ _)).
  - reflexivity.
  - intros m [<-|[<-|[]]]; split; reflexivity.
Defined.

(** C8, as stated, names an error the code does not raise: the failure is
    [ZeroDivisionError], and no exception of the program is called
    EmptySeedError. *)
Lemma seed_error_is_not_EmptySeedError :
  CalculoCargaEaf.solucion_inicial 20000 catalog_foreign
  = Raise ZeroDivisionError /\
  EafChargeGekko.calc_initial_solution catalog_foreign
    (VDict [("C", VNum 0.3)]) (VDict [("C", VNum 0.4)])
    ["A"; "B"] ["C"] [0; 0] [1; 1] 20000 = Raise ZeroDivisionError /\
  (forall e, exception_name e <> "EmptySeedError").
Proof.
  repeat split; try reflexivity. intros []; discriminate.
Qed.

(** ** Evaluating the expressions GEKKO builds *)

Lemma eval_add (xs : list Q) (a b : expr) :
  eval xs (add a b) = lift2 Qplus (eval xs a) (eval xs b).
Proof. destruct a, b; reflexivity. Qed.

Lemma eval_mul (xs : list Q) (a b : expr) :
  eval xs (mul a b) = lift2 Qmult (eval xs a) (eval xs b).
Proof. destruct a, b; reflexivity. Qed.

Lemma eval_fold_add (xs : list Q) (ts : list expr) (acc : expr) :
  eval xs (fold_left add ts acc)
  = fold_left (fun o t => lift2 Qplus o (eval xs t)) ts (eval xs acc).
Proof.
  revert acc; induction ts as [|t ts IH]; intros acc; simpl; [reflexivity|].
  now rewrite IH, eval_add.
Qed.

Lemma fold_lift_values (vals : list Q) (a : Q) :
  fold_left (fun o v => lift2 Qplus o v) (map Some vals) (Some a)
  = Some (fold_left Qplus vals a).
Proof.
  revert a; induction vals as [|v vals IH]; intros a; simpl; [reflexivity|].
  apply IH.
Qed.

Lemma eval_sum (xs : list Q) (ts : list expr) (vals : list Q) :
  map (eval xs) ts = map Some vals ->
  eval xs (sum ts) = Some (Py.sum vals).
Proof.
  intros H. unfold sum, Py.sum. rewrite eval_fold_add. simpl.
  rewrite <- fold_lift_values, <- H.
  generalize (Some 0). clear H.
  induction ts as [|t ts IH]; intros o; simpl; [reflexivity | apply IH].
Qed.

Lemma eval_div (xs : list Q) (a b d : expr) (va vb : Q) :
  div a b = Ok d -> eval xs a = Some va -> eval xs b = Some vb ->
  ~ vb == 0 -> eval xs d = Some (va / vb).
Proof.
  intros Hd Ha Hb Hne.
  assert (Hq : Qeq_bool vb 0 = false).
  { destruct (Qeq_bool vb 0) eqn:E; [|reflexivity].
    apply Qeq_bool_eq in E; contradiction. }
  assert (Hsym : eval xs (EDiv a b) = Some (va / vb)).
  { simpl. now rewrite Ha, Hb, Hq. }
  destruct a; try (simpl in Hd; inversion Hd; subst; exact Hsym).
  destruct b; try (simpl in Hd; inversion Hd; subst; exact Hsym).
  simpl in Ha, Hb. inversion Ha; inversion Hb; subst.
  unfold div, truediv in Hd. rewrite Hq in Hd. simpl in Hd.
  inversion Hd; reflexivity.
Qed.

(** The variables evaluate to the entries of the assignment. *)
Lemma eval_vars_from (pre xs : list Q) :
  Forall2 (fun v x => eval (pre ++ xs)%list v = Some x)
          (map EVar (seq (List.length pre) (List.length xs))) xs.
Proof.
  revert pre; induction xs as [|x xs IH]; intros pre; simpl; constructor.
  - simpl. rewrite nth_error_app2, Nat.sub_diag by lia. reflexivity.
  - specialize (IH (pre ++ [x])%list).
    rewrite <- app_assoc in IH. simpl in IH.
    rewrite length_app in IH. simpl in IH.
    now rewrite Nat.add_1_r in IH.
Qed.

Lemma eval_vars (xs : list Q) :
  Forall2 (fun v x => eval xs v = Some x) (vars (List.length xs)) xs.
Proof. exact (eval_vars_from [] xs). Qed.

Lemma weighted_sum_products (xs cs : list Q) :
  Py.sum (map (fun p => fst p * snd p) (combine xs cs)) == weighted_sum xs cs.
Proof.
  unfold weighted_sum.
  induction (combine xs cs) as [|p l IH]; simpl; [reflexivity|].
  rewrite sum_cons, IH. reflexivity.
Qed.

(** The terms of a mix evaluate to the products [x_i * c_i]. *)
Lemma eval_terms_of {A} (coef : A -> result Q) (XS : list Q) :
  forall (materials : list A) (x : list expr) (xs : list Q)
         (terms : list expr),
    Forall2 (fun v q => eval XS v = Some q) x xs ->
    List.length x = List.length materials ->
    terms_of coef x materials = Ok terms ->
    exists cs, mapM coef materials = Ok cs /\
      map (eval XS) terms
      = map Some (map (fun p => fst p * snd p) (combine xs cs)).
Proof.
  unfold terms_of.
  induction materials as [|mi ms IH]; intros x xs terms Hx Hlen H.
  - destruct x; [|discriminate]. simpl in H. inversion H; subst.
    exists []. split; [reflexivity|]. now destruct xs.
  - destruct x as [|v x]; [discriminate|]. inversion Hx as [|? q ? xs' Hv Hx']; subst.
    simpl in H. bind_inv H as t Ht. bind_inv Ht as c Hc.
    inversion Ht; subst; clear Ht.
    bind_inv H as ts Hts. inversion H; subst; clear H.
    destruct (IH x xs' ts Hx') as (cs & Hcs & Hev);
      [simpl in Hlen; lia | assumption |].
    exists (c :: cs). simpl. rewrite Hc, Hcs. split; [reflexivity|].
    rewrite eval_mul, Hv. simpl. now rewrite Hev.
Qed.

Lemma terms_of_total {A} (coef : A -> result Q) (materials : list A)
    (x : list expr) (cs : list Q) :
  List.length x = List.length materials ->
  mapM coef materials = Ok cs ->
  exists terms, terms_of coef x materials = Ok terms.
Proof.
  unfold terms_of. revert x cs.
  induction materials as [|mi ms IH]; intros [|v x] cs Hlen H;
    simpl in *; try discriminate; [eauto|].
  bind_inv H as c Hc. bind_inv H as cs' Hcs. inversion H; subst.
  destruct (IH x cs') as (ts & Hts); [lia | assumption |].
  rewrite Hc, Hts. simpl. eauto.
Qed.

Lemma mix_terms_zip (x : list expr) (md : value) (materials : list string)
    (side e : string) :
  List.length x = List.length materials ->
  Common.mix_terms x md materials side e
  = terms_of (fun mi => material_chemistry md mi side e) x materials.
Proof.
  intros Hlen. unfold Common.mix_terms, terms_of.
  exact (mapM_range_zip
           (fun xi mi => c <- material_chemistry md mi side e ;;
                         Ok (mul xi (EConst c))) x materials Hlen).
Qed.

Lemma vars_length (n : nat) : List.length (vars n) = n.
Proof. unfold vars. now rewrite length_map, length_seq. Qed.

(** ** The equations of a model *)

Lemma Equation_add (m : model) (e : equation) :
  Equation m e = add_equations m [e].
Proof. reflexivity. Qed.

Lemma add_equations_app (m : model) (a b : list equation) :
  add_equations (add_equations m a) b = add_equations m (a ++ b)%list.
Proof. unfold add_equations; simpl. now rewrite app_assoc. Qed.

Lemma add_equations_nil (m : model) : add_equations m [] = m.
Proof. destruct m; unfold add_equations; simpl. now rewrite app_nil_r. Qed.

(** A loop whose body appends a block of equations appends the blocks in
    order. *)
Lemma foldM_append {A} (f : model -> A -> result model)
    (g : A -> result (list equation)) (l : list A) (m : model) :
  (forall m a, In a l -> f m a = (b <- g a ;; Ok (add_equations m b))) ->
  foldM f l m = (bs <- mapM g l ;; Ok (add_equations m (List.concat bs))).
Proof.
  revert m; induction l as [|a l IH]; intros m H; simpl.
  - now rewrite add_equations_nil.
  - rewrite H by (simpl; auto). destruct (g a) as [b|err]; simpl; [|reflexivity].
    rewrite IH by (intros; apply H; simpl; auto).
    destruct (mapM g l) as [bs|err]; simpl; [|reflexivity].
    now rewrite add_equations_app.
Qed.

Lemma holds_at_least (xs : list Q) (a : expr) (lo v v' : Q) :
  eval xs a = Some v -> v == v' ->
  (holds xs (at_least a (EConst lo)) = true <-> lo <= v').
Proof.
  intros H Hv. unfold holds; simpl. rewrite H; simpl.
  rewrite Qle_bool_iff, Hv. reflexivity.
Qed.

Lemma holds_at_most (xs : list Q) (a : expr) (hi v v' : Q) :
  eval xs a = Some v -> v == v' ->
  (holds xs (at_most a (EConst hi)) = true <-> v' <= hi).
Proof.
  intros H Hv. unfold holds; simpl. rewrite H; simpl.
  rewrite Qle_bool_iff, Hv. reflexivity.
Qed.

(** The value of [sum(terms)/heat_weight] at an assignment. *)
Lemma eval_charge_mix (coef : string -> result Q) (hw : Q)
    (materials : list string) (terms : list expr) (mix : expr) (xs : list Q) :
  terms_of coef (vars (List.length materials)) materials = Ok terms ->
  div (sum terms) (EConst hw) = Ok mix ->
  List.length xs = List.length materials -> ~ hw == 0 ->
  exists cs, mapM coef materials = Ok cs /\
    exists v, eval xs mix = Some v /\ v == charge_mix xs cs hw.
Proof.
  intros Ht Hd Hlen Hne.
  pose proof (eval_vars xs) as Hv. rewrite Hlen in Hv.
  destruct (eval_terms_of coef xs materials _ xs terms Hv
              (vars_length _) Ht) as (cs & Hcs & Hev).
  exists cs; split; [assumption|].
  apply eval_sum in Hev.
  exists (Py.sum (map (fun p => fst p * snd p) (combine xs cs)) / hw). split.
  - exact (eval_div xs _ _ _ _ _ Hd Hev eq_refl Hne).
  - unfold charge_mix. now rewrite weighted_sum_products.
Qed.

Lemma range_block_meaning (hw : Q) (coef : string -> string -> result Q)
    (bound : value -> result Q) (materials : list string)
    (cmin cmax : value) (e : string) (block : list equation) :
  range_block hw coef bound materials cmin cmax
              (vars (List.length materials)) e = Ok block ->
  exists lo hi low high,
    (v <- getitem cmin e ;; bound v) = Ok lo /\
    (v <- getitem cmax e ;; bound v) = Ok hi /\
    mapM (coef "min") materials = Ok low /\
    mapM (coef "max") materials = Ok high /\
    four_range_constraints (List.length materials) hw lo hi low high block.
Proof.
  intros H. unfold range_block in H.
  bind_inv H as lo_terms Hlo. bind_inv H as min_mix Hmin.
  bind_inv H as hi_terms Hhi. bind_inv H as max_mix Hmax.
  bind_inv H as cmin_e Hcmin. bind_inv H as lo Hblo.
  bind_inv H as cmax_e Hcmax. bind_inv H as hi Hbhi.
  inversion H; subst; clear H.
  assert (Hlow : exists low, mapM (coef "min") materials = Ok low).
  { pose proof (eval_vars (repeat 0 (List.length materials))) as Hv.
    rewrite repeat_length in Hv.
    destruct (eval_terms_of (coef "min") _ materials _ _ lo_terms Hv
                (vars_length _) Hlo) as (cs & Hcs & _). eauto. }
  assert (Hhigh : exists high, mapM (coef "max") materials = Ok high).
  { pose proof (eval_vars (repeat 0 (List.length materials))) as Hv.
    rewrite repeat_length in Hv.
    destruct (eval_terms_of (coef "max") _ materials _ _ hi_terms Hv
                (vars_length _) Hhi) as (cs & Hcs & _). eauto. }
  destruct Hlow as (low & Hlow). destruct Hhigh as (high & Hhigh).
  exists lo, hi, low, high. rewrite Hcmin, Hcmax; simpl.
  repeat split; try assumption.
  exists min_mix, max_mix. split; [reflexivity|].
  intros xs Hlen Hne.
  destruct (eval_charge_mix _ hw materials lo_terms min_mix xs Hlo Hmin Hlen Hne)
    as (cs & Hcs & v & Hv & Hveq).
  destruct (eval_charge_mix _ hw materials hi_terms max_mix xs Hhi Hmax Hlen Hne)
    as (cs' & Hcs' & w & Hw & Hweq).
  rewrite Hlow in Hcs; inversion Hcs; subst cs.
  rewrite Hhigh in Hcs'; inversion Hcs'; subst cs'.
  split; [eauto|]. split; [eauto|].
  simpl. rewrite !andb_true_iff.
  rewrite (holds_at_least xs min_mix lo v _ Hv Hveq).
  rewrite (holds_at_most xs min_mix hi v _ Hv Hveq).
  rewrite (holds_at_least xs max_mix lo w _ Hw Hweq).
  rewrite (holds_at_most xs max_mix hi w _ Hw Hweq).
  unfold in_range. tauto.
Qed.

Ltac step_bind :=
  match goal with
  | |- bind ?c _ = _ => destruct c; simpl; try reflexivity
  end.

Lemma chemistry_constraints_block (hw : Q) (md : value)
    (materials : list string) (cmin cmax : value) (x : list expr)
    (m : model) (e : string) :
  List.length x = List.length materials ->
  Common.chemistry_constraints hw md materials cmin cmax x m e
  = (b <- range_block hw (fun side mi => material_chemistry md mi side e)
                      normalize_chemistry_value materials cmin cmax x e ;;
     Ok (add_equations m b)).
Proof.
  intros Hlen. unfold Common.chemistry_constraints, range_block.
  rewrite !(mix_terms_zip x md materials _ e Hlen).
  repeat step_bind.
  now rewrite !Equation_add, !add_equations_app.
Qed.

Lemma example_mix_terms_zip (x : list expr) (md : value)
    (materials : list string) (side e : string) :
  List.length x = List.length materials ->
  ChargeGekkoExample.mix_terms x md materials side e
  = terms_of (fun mi =>
                mat <- getitem md mi ;;
                chem <- getitem mat "chemestry" ;;
                bound <- getitem chem side ;;
                c <- dict_get bound e (VNum 0) ;;
                as_num c) x materials.
Proof.
  intros Hlen. unfold ChargeGekkoExample.mix_terms, terms_of.
  rewrite <- (mapM_range_zip
           (fun xi mi =>
              c <- (mat <- getitem md mi ;;
                    chem <- getitem mat "chemestry" ;;
                    bound <- getitem chem side ;;
                    c <- dict_get bound e (VNum 0) ;;
                    as_num c) ;;
              Ok (mul xi (EConst c))) x materials Hlen).
  apply mapM_ext. intros i _.
  destruct (index x i); simpl; [|reflexivity].
  destruct (index materials i); simpl; [|reflexivity].
  repeat (step_bind).
Qed.

Lemma example_chemistry_constraints_block (md : value)
    (materials : list string) (cmin cmax : value) (x : list expr)
    (m : model) (e : string) :
  List.length x = List.length materials ->
  ChargeGekkoExample.chemistry_constraints md materials cmin cmax x m e
  = (b <- range_block ChargeGekkoExample.heat_weight
          (fun side mi =>
             mat <- getitem md mi ;;
             chem <- getitem mat "chemestry" ;;
             bound <- getitem chem side ;;
             c <- dict_get bound e (VNum 0) ;;
             as_num c)
          as_num materials cmin cmax x e ;;
     Ok (add_equations m b)).
Proof.
  intros Hlen. unfold ChargeGekkoExample.chemistry_constraints, range_block.
  rewrite !(example_mix_terms_zip x md materials _ e Hlen).
  repeat step_bind.
  now rewrite !Equation_add, !add_equations_app.
Qed.

Lemma fraction_constraints_block (hw : Q) (x : list expr)
    (mat_min mat_max : list Q) (m : model) (i : nat) :
  Common.fraction_constraints hw x mat_min mat_max m i
  = (b <- fraction_block hw x mat_min mat_max i ;; Ok (add_equations m b)).
Proof.
  unfold Common.fraction_constraints, fraction_block.
  repeat step_bind.
  now rewrite !Equation_add, !add_equations_app.
Qed.

Lemma index_vars (n i : nat) (v : expr) :
  index (vars n) i = Ok v -> v = EVar i /\ (i < n)%nat.
Proof.
  unfold index, vars. rewrite nth_error_map, nth_error_seq.
  destruct (Nat.ltb_spec i n) as [Hlt|Hge]; simpl; intros Hv;
    inversion Hv; auto.
Qed.

Lemma fraction_block_shape (hw : Q) (n : nat) (mat_min mat_max : list Q)
    (i : nat) (b : list equation) :
  fraction_block hw (vars n) mat_min mat_max i = Ok b ->
  List.length b = 2%nat /\ Forall (on_share_of_variable hw) b.
Proof.
  unfold fraction_block. intros H.
  bind_inv H as xi Hxi. apply index_vars in Hxi. destruct Hxi as [-> _].
  simpl in H. bind_inv H as lo Hlo. bind_inv H as hi Hhi.
  inversion H; subst. split; [reflexivity|].
  repeat constructor; exists i; reflexivity.
Qed.

Lemma pick_vars (n : nat) (indices : list nat) (xs : list expr) :
  pick (vars n) indices = Ok xs -> xs = map EVar indices.
Proof.
  unfold pick. revert xs.
  induction indices as [|i l IH]; simpl; intros xs H.
  - now inversion H.
  - bind_inv H as v Hv. bind_inv H as vs Hvs. inversion H; subst.
    apply index_vars in Hv. destruct Hv as [-> _]. f_equal. now apply IH.
Qed.

(** Declaring the variables leaves the equations alone and yields
    [x[i] = EVar i], each variable with lower bound 0. *)
Lemma declare_from (valf : nat -> result float64) (stock : list value) :
  forall (n k : nat) (m m' : model) (x x' : list expr),
    List.length (variables m) = k ->
    foldM (fun '(m, x) i =>
             v <- valf i ;;
             s <- index stock i ;;
             ub <- upper_bound s ;;
             let '(m', xi) := Var m v (Some 0) ub in
             Ok (m', (x ++ [xi])%list))
          (seq k n) (m, x) = Ok (m', x') ->
    x' = (x ++ map EVar (seq k n))%list /\
    equations m' = equations m /\
    objectives m' = objectives m /\
    List.length (variables m') = (k + n)%nat /\
    (Forall (fun v => gv_lb v = Some 0) (variables m) ->
     Forall (fun v => gv_lb v = Some 0) (variables m')).
Proof.
  induction n as [|n IH]; intros k m m' x x' Hk H; simpl in H.
  - inversion H; subst. rewrite app_nil_r, Nat.add_0_r. auto.
  - bind_inv H as st Hst. bind_inv Hst as v Hv. bind_inv Hst as s Hs.
    bind_inv Hst as ub Hub. simpl in Hst. inversion Hst; subst st; clear Hst.
    apply IH in H; [|simpl; rewrite length_app; simpl; lia].
    destruct H as (Hx & He & Ho & Hl & Hlb). simpl in *.
    rewrite Hk in Hx. rewrite <- app_assoc in Hx. simpl in Hx.
    repeat split; try assumption; [lia|].
    intros Hall. apply Hlb. apply Forall_app; split; [assumption|].
    repeat constructor.
Qed.

Lemma declare_variables_spec (initial : list float64) (stock : list value)
    (n : nat) (m : model) (x : list expr) :
  Common.declare_variables GEKKO initial stock n = Ok (m, x) ->
  x = vars n /\ equations m = [] /\ objectives m = [] /\
  List.length (variables m) = n /\
  Forall (fun v => gv_lb v = Some 0) (variables m).
Proof.
  intros H. unfold Common.declare_variables in H.
  apply (declare_from (index initial) stock n 0 GEKKO m [] x eq_refl) in H.
  destruct H as (Hx & He & Ho & Hl & Hlb). simpl in *.
  repeat split; auto.
Qed.

Lemma mapM_Forall2 {A B} (g : A -> result B) (l : list A) (bs : list B) :
  mapM g l = Ok bs -> Forall2 (fun a b => g a = Ok b) l bs.
Proof.
  revert bs; induction l as [|a l IH]; simpl; intros bs H.
  - inversion H; constructor.
  - bind_inv H as b Hb. bind_inv H as bs' Hbs. inversion H; subst.
    constructor; auto.
Qed.

Lemma Forall_concat_blocks {A B} (P : B -> Prop)
    (g : A -> result (list B)) (l : list A) (bs : list (list B)) :
  (forall a b, g a = Ok b -> Forall P b) ->
  mapM g l = Ok bs -> Forall P (List.concat bs).
Proof.
  intros Hg H. apply mapM_Forall2 in H.
  induction H as [|a b l bs Hab _ IH]; simpl; [constructor|].
  apply Forall_app; split; eauto.
Qed.

(** The optional category equations. *)
Lemma category_floor_shape (n : nat) (hw : Q) (m m' : model)
    (indices : list nat) (pct : value) :
  match indices with
  | [] => Ok m
  | _ =>
      pct <- as_num pct ;;
      if gt pct 0 then
        xs <- pick (vars n) indices ;;
        Ok (Equation m (at_least (sum xs) (EConst (pct * hw))))
      else Ok m
  end = Ok m' ->
  exists b, m' = add_equations m b /\ Forall on_sum_of_variables b.
Proof.
  intros H.
  assert (Hnone : m' = m -> exists b, m' = add_equations m b /\
                                      Forall on_sum_of_variables b).
  { intros ->. exists []. now rewrite add_equations_nil. }
  destruct indices as [|i l]; [apply Hnone; congruence|].
  bind_inv H as q Hq. destruct (gt q 0); [|apply Hnone; congruence].
  bind_inv H as xs Hxs. inversion H; subst.
  apply pick_vars in Hxs. subst xs.
  eexists; split; [apply Equation_add|].
  repeat constructor. now exists (i :: l).
Qed.

Lemma category_ceiling_shape (n : nat) (hw : Q) (m m' : model)
    (indices : list nat) (cap : value) :
  match indices, cap with
  | [], _ => Ok m
  | _, VNone => Ok m
  | _, _ =>
      cap <- as_num cap ;;
      xs <- pick (vars n) indices ;;
      Ok (Equation m (at_most (sum xs) (EConst (cap * hw))))
  end = Ok m' ->
  exists b, m' = add_equations m b /\ Forall on_sum_of_variables b.
Proof.
  intros H.
  assert (Hnone : m' = m -> exists b, m' = add_equations m b /\
                                      Forall on_sum_of_variables b).
  { intros ->. exists []. now rewrite add_equations_nil. }
  destruct indices as [|i l]; [apply Hnone; congruence|].
  destruct cap; try (apply Hnone; congruence);
    try (simpl in H; discriminate).
  bind_inv H as c Hc. bind_inv H as xs Hxs. inversion H; subst.
  apply pick_vars in Hxs. subst xs.
  eexists; split; [apply Equation_add|].
  repeat constructor. now exists (i :: l).
Qed.

Lemma charge_model_structure
    (seed : value -> value -> value -> list string -> list string ->
            list Q -> list Q -> Q -> result (list float64))
    (md ci : value) (hw : Q) (m : model) (x : list expr) :
  charge_model seed md ci hw = Ok (m, x) ->
  charge_design_model (fun e side mi => material_chemistry md mi side e)
                      normalize_chemistry_value md ci hw m x.
Proof.
  intros H. unfold charge_model in H.
  bind_inv H as charge_min Hcmin. bind_inv H as charge_max Hcmax.
  bind_inv H as min_acero_pct Hpct. bind_inv H as max_returns Hret.
  bind_inv H as materials Hmat. bind_inv H as elements Hel.
  bind_inv H as cost Hcost. bind_inv H as stock Hstock.
  bind_inv H as mat_min Hmin. bind_inv H as mat_max Hmax.
  bind_inv H as initial Hseed.
  bind_inv H as st Hdecl. destruct st as [m0 x0].
  apply declare_variables_spec in Hdecl.
  destruct Hdecl as (-> & Heq0 & _ & _ & _).
  bind_inv H as acero Hacero. bind_inv H as m1 Hm1.
  bind_inv H as returns_idx Hridx. bind_inv H as m2 Hm2.
  bind_inv H as m3 Hchem. bind_inv H as m4 Hfrac.
  bind_inv H as terms Hterms. inversion H; subst m x; clear H.
  apply category_floor_shape in Hm1. destruct Hm1 as (b1 & -> & Hb1).
  apply category_ceiling_shape in Hm2. destruct Hm2 as (b2 & -> & Hb2).
  rewrite (foldM_append _
             (fun e =>
                range_block hw (fun side mi => material_chemistry md mi side e)
                  normalize_chemistry_value materials charge_min charge_max
                  (vars (List.length materials)) e)) in Hchem
    by (intros; apply chemistry_constraints_block, vars_length).
  bind_inv Hchem as blocks Hblocks. inversion Hchem; subst m3; clear Hchem.
  rewrite (foldM_append _
             (fraction_block hw (vars (List.length materials)) mat_min mat_max))
    in Hfrac by (intros; apply fraction_constraints_block).
  bind_inv Hfrac as fblocks Hfblocks. inversion Hfrac; subst m4; clear Hfrac.
  exists charge_min, charge_max, materials, elements,
    ([equal (sum (vars (List.length materials))) (EConst hw)] ++ b1 ++ b2)%list,
    blocks, (List.concat fblocks).
  repeat split; try assumption.
  - simpl. rewrite Heq0. simpl. now rewrite <- !app_assoc.
  - constructor; [now exists (seq 0 (List.length materials))|].
    apply Forall_app; split; assumption.
  - eapply Forall_concat_blocks; [|exact Hfblocks].
    intros i b Hb. now apply fraction_block_shape in Hb.
  - apply mapM_Forall2 in Hblocks.
    eapply Forall2_impl; [|exact Hblocks].
    intros e block Hb. apply range_block_meaning in Hb.
    destruct Hb as (lo & hi & low & high & ? & ? & ? & ? & ?).
    now exists lo, hi, low, high.
Qed.

Lemma script_model_structure (md limits : value) (m : model) (x : list expr) :
  ChargeGekkoExample.script_model md limits = Ok (m, x) ->
  charge_design_model (fun e side mi => raw_chemistry md mi side e) as_num
                      md limits ChargeGekkoExample.heat_weight m x.
Proof.
  intros H. unfold ChargeGekkoExample.script_model in H.
  bind_inv H as charge_min Hcmin. bind_inv H as charge_max Hcmax.
  bind_inv H as materials Hmat. bind_inv H as elements Hel.
  bind_inv H as cost Hcost. bind_inv H as stock Hstock.
  bind_inv H as mat_min Hmin. bind_inv H as mat_max Hmax.
  bind_inv H as st Hdecl. destruct st as [m0 x0].
  apply (declare_from
           (fun _ => Float64.truediv
                       (Float64.of_Q ChargeGekkoExample.heat_weight)
                       (Float64.of_Z (Z.of_nat (List.length materials))))
           stock _ 0 GEKKO m0 [] x0 eq_refl) in Hdecl.
  destruct Hdecl as (Hx0 & Heq0 & _ & _ & _). simpl in Hx0, Heq0.
  change (map EVar (seq 0 (List.length materials)))
    with (vars (List.length materials)) in Hx0. subst x0.
  bind_inv H as m3 Hchem. bind_inv H as m4 Hfrac.
  bind_inv H as terms Hterms. inversion H; subst m x; clear H.
  rewrite (foldM_append _
             (fun e =>
                range_block ChargeGekkoExample.heat_weight
                  (fun side mi => raw_chemistry md mi side e)
                  as_num materials charge_min charge_max
                  (vars (List.length materials)) e)) in Hchem
    by (intros; apply example_chemistry_constraints_block, vars_length).
  bind_inv Hchem as blocks Hblocks. inversion Hchem; subst m3; clear Hchem.
  rewrite (foldM_append _
             (fraction_block ChargeGekkoExample.heat_weight
                (vars (List.length materials)) mat_min mat_max))
    in Hfrac by (intros; apply fraction_constraints_block).
  bind_inv Hfrac as fblocks Hfblocks. inversion Hfrac; subst m4; clear Hfrac.
  exists charge_min, charge_max, materials, elements,
    [equal (sum (vars (List.length materials)))
           (EConst ChargeGekkoExample.heat_weight)],
    blocks, (List.concat fblocks).
  repeat split; try assumption.
  - simpl. rewrite Heq0. simpl. now rewrite <- ?app_assoc.
  - constructor; [now exists (seq 0 (List.length materials))|constructor].
  - eapply Forall_concat_blocks; [|exact Hfblocks].
    intros i b Hb. now apply fraction_block_shape in Hb.
  - apply mapM_Forall2 in Hblocks.
    eapply Forall2_impl; [|exact Hblocks].
    intros e block Hb. apply range_block_meaning in Hb.
    destruct Hb as (lo & hi & low & high & ? & ? & ? & ? & ?).
    now exists lo, hi, low, high.
Qed.



Example charge_model_equation_count :
  match EafChargeGekko.create_optimization_model catalog_recipe charge_spec 20000
  with
  | Ok (m, x) => (List.length (equations m), List.length x)
  | Raise _ => (0%nat, 0%nat)
  end = (12%nat, 3%nat).
Proof. vm_compute. reflexivity. Qed.

(** ** The status column *)


(** ** Percent values *)

Lemma material_fraction_number (md mat : value) (material key : string) (q : Q) :
  getitem md material = Ok mat -> getitem mat key = Ok (VNum q) ->
  material_fraction md material key = Ok (q / 100).
Proof.
  intros H1 H2. unfold material_fraction.
  rewrite H1; simpl. rewrite H2; reflexivity.
Qed.

Lemma bound_kg_number (q peso : Q) :
  Reports.bound_kg (VNum q) peso = Ok (q * peso).
Proof. reflexivity. Qed.

(** C9, at a material whose minimum is the bare number 5 and whose maximum
    is the text "50%": the builders read 5 as 5 percent (fraction 5/100); the
    report's table reads it as the fraction 5, so that its minimum column is
    five times the charge; the text is read as 50/100 by both. *)
Theorem bare_number_on_two_scales :
  yields (material_fraction catalog_bare "fierro_Primera" "min") (5 / 100) /\
  yields (Reports.bound_kg (VNum 5) 20000) (5 * 20000) /\
  yields (material_fraction catalog_bare "fierro_Primera" "max") (50 / 100) /\
  yields (Reports.bound_kg (VStr "50%") 20000) (50 / 100 * 20000) /\
  match Reports.print_table_resultados [20000] catalog_bare charge_spec with
  | Ok [row] =>
      Qeq_bool (Reports.row_min row) 100000 &&
      Qeq_bool (Reports.row_value row) 20000 &&
      Qeq_bool (Reports.row_max row) 10000
  | _ => false
  end = true.
Proof.
  split; [eexists; split; [vm_compute; reflexivity | reflexivity]|].
  split; [eexists; split; [vm_compute; reflexivity | reflexivity]|].
  split; [eexists; split; [vm_compute; reflexivity | reflexivity]|].
  split; [eexists; split; [vm_compute; reflexivity | reflexivity]|].
  vm_compute; reflexivity.
Qed.

(** ** Chemistry mappings that omit elements *)

Lemma mapM_total {A B} (f : A -> result B) (l : list A) :
  (forall a, In a l -> exists b, f a = Ok b) -> exists bs, mapM f l = Ok bs.
Proof.
  induction l as [|a l IH]; simpl; intros H; [eauto|].
  destruct (H a) as (b & Hb); [auto|].
  destruct IH as (bs & Hbs); [auto|].
  rewrite Hb, Hbs; simpl; eauto.
Qed.

Lemma numeric_terms {A} (coef : A -> result Q) :
  forall (ms : list A) (xs cs : list Q),
    mapM coef ms = Ok cs -> List.length xs = List.length ms ->
    mapM (fun p => c <- coef (snd p) ;; Ok (fst p * c)) (combine xs ms)
    = Ok (map (fun p => fst p * snd p) (combine xs cs)).
Proof.
  induction ms as [|mi ms IH]; intros [|v xs] cs H Hlen;
    simpl in *; try discriminate.
  - reflexivity.
  - bind_inv H as c Hc. bind_inv H as cs' Hcs. inversion H; subst.
    rewrite Hc; simpl. rewrite (IH xs cs') by (auto; lia). reflexivity.
Qed.

Lemma mix_value_zip (xs : list Q) (md : value) (materials : list string)
    (side e : string) (hw : Q) (cs : list Q) :
  List.length xs = List.length materials ->
  chemistry_of md materials side e = Ok cs ->
  mix_value xs md materials side e hw
  = truediv (Py.sum (map (fun p => fst p * snd p) (combine xs cs))) hw.
Proof.
  intros Hlen Hcs. unfold mix_value.
  rewrite (mapM_range_zip
             (fun v mi => c <- material_chemistry md mi side e ;; Ok (v * c))
             xs materials Hlen).
  rewrite (numeric_terms (fun mi => material_chemistry md mi side e)
             materials xs cs Hcs Hlen).
  reflexivity.
Qed.

Lemma missing_chemistry_zero (md mat chem : value) (d : list (string * value))
    (material side e : string) :
  getitem md material = Ok mat ->
  getitem mat "chemistry" = Ok chem ->
  getitem chem side = Ok (VDict d) ->
  assoc e d = None \/ assoc e d = Some VNone ->
  exists c, material_chemistry md material side e = Ok c /\ c == 0.
Proof.
  intros H1 H2 H3 Hmiss. unfold material_chemistry.
  rewrite H1; simpl. rewrite H2; simpl. rewrite H3; simpl.
  destruct Hmiss as [-> | ->]; simpl; eexists; split; reflexivity.
Qed.

Lemma partial_chemistry_total (md : value) (material side e : string) :
  partial_chemistry md material side ->
  exists c, material_chemistry md material side e = Ok c.
Proof.
  intros (mat & chem & d & H1 & H2 & H3 & Hd). unfold material_chemistry.
  rewrite H1; simpl. rewrite H2; simpl. rewrite H3; simpl.
  destruct (assoc e d) as [v|] eqn:E; simpl; [|eauto].
  apply assoc_In in E.
  destruct (proj1 (Forall_forall _ _) Hd _ E) as [Hv | (q & Hv)];
    simpl in Hv; subst v; simpl; eauto.
Qed.



(** ** The chemistry evaluators *)

(** [calculate_chemistry_solution] evaluates the same mix the builder
    constrains: the same normalized chemistry, summed over the same
    materials, divided by the same weight. *)
Lemma evaluator_agrees_with_builder (md : value) (materials : list string)
    (side e : string) (hw : Q) (xs cs : list Q) :
  List.length xs = List.length materials ->
  chemistry_of md materials side e = Ok cs ->
  ~ hw == 0 ->
  yields (mix_value xs md materials side e hw) (charge_mix xs cs hw).
Proof.
  intros Hlen Hcs Hne.
  rewrite (mix_value_zip xs md materials side e hw cs Hlen Hcs).
  rewrite truediv_nonzero by assumption.
  eexists; split; [reflexivity|].
  unfold charge_mix. now rewrite weighted_sum_products.
Qed.

Lemma calculate_chemistry_solution_from (xs : list Q) (md : value)
    (materials : list string) (hw : Q) :
  forall (elements : list string) (a b mins maxs : list (string * Q)),
    foldM (fun '(solution_chemistry_min, solution_chemistry_max) e =>
             lo <- mix_value xs md materials "min" e hw ;;
             hi <- mix_value xs md materials "max" e hw ;;
             Ok ((solution_chemistry_min ++ [(e, lo)])%list,
                 (solution_chemistry_max ++ [(e, hi)])%list))
          elements (a, b) = Ok (mins, maxs) ->
    exists mins' maxs',
      mins = (a ++ mins')%list /\ maxs = (b ++ maxs')%list /\
      Forall2 (fun e kv => fst kv = e /\
                 mix_value xs md materials "min" e hw = Ok (snd kv))
              elements mins' /\
      Forall2 (fun e kv => fst kv = e /\
                 mix_value xs md materials "max" e hw = Ok (snd kv))
              elements maxs'.
Proof.
  induction elements as [|e es IH]; intros a b mins maxs H; simpl in H.
  - inversion H; subst. exists [], []. rewrite !app_nil_r.
    repeat split; constructor.
  - bind_inv H as st Hst. bind_inv Hst as lo Hlo. bind_inv Hst as hi Hhi.
    inversion Hst; subst st; clear Hst.
    apply IH in H. destruct H as (mins' & maxs' & -> & -> & Hmin & Hmax).
    exists ((e, lo) :: mins'), ((e, hi) :: maxs').
    rewrite <- !app_assoc. simpl.
    repeat split; constructor; auto.
Qed.

Lemma calculate_chemistry_solution_spec (xs : list Q) (md : value)
    (materials elements : list string) (hw : Q)
    (mins maxs : list (string * Q)) :
  EafChargeGekko.calculate_chemistry_solution xs md materials elements hw
  = Ok (mins, maxs) ->
  Forall2 (fun e kv => fst kv = e /\
             mix_value xs md materials "min" e hw = Ok (snd kv))
          elements mins /\
  Forall2 (fun e kv => fst kv = e /\
             mix_value xs md materials "max" e hw = Ok (snd kv))
          elements maxs.
Proof.
  intros H. unfold EafChargeGekko.calculate_chemistry_solution in H.
  apply calculate_chemistry_solution_from in H.
  destruct H as (mins' & maxs' & -> & -> & Hmin & Hmax). simpl. auto.
Qed.

(** On every catalog a charge builder accepts, the evaluator of
    [reports.py] raises: the catalog has no material named "chemistry", or
    that material's ['min'] is a fraction bound and has no [keys]. *)
Lemma reports_evaluator_rejects_builder_catalogs
    (seed : value -> value -> value -> list string -> list string ->
            list Q -> list Q -> Q -> result (list float64))
    (md ci : value) (hw : Q) (m : model) (x : list expr) (xs : list Q) :
  charge_model seed md ci hw = Ok (m, x) ->
  Reports.calcular_quimica_solucion xs md = Raise KeyError \/
  Reports.calcular_quimica_solucion xs md = Raise AttributeError.
Proof.
  intros H. unfold charge_model in H.
  bind_inv H as charge_min Hcmin. bind_inv H as charge_max Hcmax.
  bind_inv H as min_acero_pct Hpct. bind_inv H as max_returns Hret.
  bind_inv H as materials Hmat. bind_inv H as elements Hel.
  bind_inv H as cost Hcost. bind_inv H as stock Hstock.
  bind_inv H as mat_min Hmin. clear H.
  unfold Reports.calcular_quimica_solucion.
  destruct md as [| | |d]; simpl in Hmat; try discriminate.
  inversion Hmat; subst materials; clear Hmat.
  simpl. destruct (assoc "chemistry" d) as [mat|] eqn:E; simpl; [|auto].
  right.
  destruct (mapM_In _ _ _ "chemistry" Hmin (assoc_In_keys _ _ _ E))
    as (q & Hq).
  unfold material_fraction in Hq. simpl in Hq. rewrite E in Hq. simpl in Hq.
  bind_inv Hq as raw Hraw. rewrite Hraw; simpl.
  bind_inv Hq as f Hf.
  destruct raw; simpl in Hf; try discriminate; reflexivity.
Qed.

(** C6, at the catalog [catalog_recipe], which [crear_modelelo] accepts, and
    the assignment of 10000 kg of each of its first two materials:
    [calcular_quimica_solucion] of [reports.py] raises [KeyError], and so
    does [print_quimica_carga], while [calculate_chemistry_solution]
    returns the mixes 0.003 and 0.004 of the builder. *)
Theorem reports_evaluator_raises :
  returns (CalculoCargaEaf.crear_modelelo catalog_recipe charge_spec 20000)
  = true /\
  Reports.calcular_quimica_solucion [10000; 10000; 0] catalog_recipe
  = Raise KeyError /\
  Reports.print_quimica_carga [10000; 10000; 0] catalog_recipe charge_spec
  = Raise KeyError /\
  match EafChargeGekko.calculate_chemistry_solution [10000; 10000; 0]
          catalog_recipe ["fierro_Primera"; "Retornos_CM"; "cal"] ["C"] 20000
  with
  | Ok ([(e, lo)], [(e', hi)]) =>
      String.eqb e "C" && String.eqb e' "C" &&
      Qeq_bool lo 0.003 && Qeq_bool hi 0.004
  | _ => false
  end = true.
Proof. repeat split; vm_compute; reflexivity. Qed.

(** ** The addition model *)

Lemma adicion_constraints_block (md ai : value) (peso : Q) (cq : value)
    (materials : list string) (x : list expr) (total : expr)
    (m : model) (e : string) :
  List.length x = List.length materials ->
  CalculoCargaEaf.adicion_constraints md ai peso cq materials x total m e
  = (b <- addition_block md ai peso cq materials x total e ;;
     Ok (add_equations m b)).
Proof.
  intros Hlen. unfold CalculoCargaEaf.adicion_constraints, addition_block.
  rewrite !(mix_terms_zip x md materials _ e Hlen).
  unfold CalculoCargaEaf.normalize_chemistry_value.
  repeat step_bind.
  now rewrite !Equation_add, !add_equations_app.
Qed.

Lemma Forall2_eval_map (XS : list Q) (l : list expr) (xs : list Q) :
  Forall2 (fun v x => eval XS v = Some x) l xs ->
  map (eval XS) l = map Some xs.
Proof. induction 1; simpl; congruence. Qed.

Lemma eval_sum_vars (xs : list Q) :
  eval xs (sum (vars (List.length xs))) = Some (Py.sum xs).
Proof. apply eval_sum, Forall2_eval_map, eval_vars. Qed.

(** The value of [(base + sum(terms)) / (colada_peso + sum(x))]. *)
Lemma eval_addition_mix {A} (coef : A -> result Q) (base peso : Q)
    (materials : list A) (terms : list expr) (mix : expr) (xs : list Q) :
  terms_of coef (vars (List.length materials)) materials = Ok terms ->
  div (add (EConst base) (sum terms))
      (add (EConst peso) (sum (vars (List.length materials)))) = Ok mix ->
  List.length xs = List.length materials ->
  ~ peso + Py.sum xs == 0 ->
  exists cs, mapM coef materials = Ok cs /\
    exists v, eval xs mix = Some v /\ v == addition_mix base peso xs cs.
Proof.
  intros Ht Hd Hlen Hne.
  pose proof (eval_vars xs) as Hv. rewrite Hlen in Hv.
  destruct (eval_terms_of coef xs materials _ xs terms Hv
              (vars_length _) Ht) as (cs & Hcs & Hev).
  exists cs; split; [assumption|].
  apply eval_sum in Hev.
  exists ((base + Py.sum (map (fun p => fst p * snd p) (combine xs cs)))
          / (peso + Py.sum xs)). split.
  - eapply (eval_div xs _ _ _ _ _ Hd); [| |exact Hne].
    + rewrite eval_add, Hev. reflexivity.
    + rewrite eval_add, <- Hlen, eval_sum_vars. reflexivity.
  - unfold addition_mix. now rewrite weighted_sum_products.
Qed.

Lemma addition_block_meaning (md ai : value) (peso : Q) (cq : value)
    (materials : list string) (e : string) (block : list equation) :
  addition_block md ai peso cq materials (vars (List.length materials))
    (add (EConst peso) (sum (vars (List.length materials)))) e = Ok block ->
  exists measured amin amax lo hi low high,
    (v <- dict_get cq e (VNum 0) ;; as_num v) = Ok measured /\
    getitem ai "min" = Ok amin /\ getitem ai "max" = Ok amax /\
    bound_of amin e = Ok lo /\ bound_of amax e = Ok hi /\
    chemistry_of md materials "min" e = Ok low /\
    chemistry_of md materials "max" e = Ok high /\
    two_tightening_constraints (List.length materials)
      (measured * peso) peso lo hi low high block.
Proof.
  intros H. unfold addition_block in H.
  bind_inv H as raw Hraw. bind_inv H as measured Hmeasured.
  bind_inv H as lo_terms Hlo. bind_inv H as min_mix Hmin.
  bind_inv H as hi_terms Hhi. bind_inv H as max_mix Hmax.
  bind_inv H as amax Hamax. bind_inv H as cmax Hcmax. bind_inv H as hi Hbhi.
  bind_inv H as amin Hamin. bind_inv H as cmin Hcmin. bind_inv H as lo Hblo.
  inversion H; subst; clear H.
  assert (Hlow : exists low, chemistry_of md materials "min" e = Ok low).
  { pose proof (eval_vars (repeat 0 (List.length materials))) as Hv.
    rewrite repeat_length in Hv.
    destruct (eval_terms_of _ _ materials _ _ lo_terms Hv
                (vars_length _) Hlo) as (cs & Hcs & _). eauto. }
  assert (Hhigh : exists high, chemistry_of md materials "max" e = Ok high).
  { pose proof (eval_vars (repeat 0 (List.length materials))) as Hv.
    rewrite repeat_length in Hv.
    destruct (eval_terms_of _ _ materials _ _ hi_terms Hv
                (vars_length _) Hhi) as (cs & Hcs & _). eauto. }
  destruct Hlow as (low & Hlow). destruct Hhigh as (high & Hhigh).
  exists measured, amin, amax, lo, hi, low, high.
  unfold bound_of. rewrite Hraw, Hcmin, Hcmax; simpl.
  repeat split; try assumption.
  exists min_mix, max_mix. split; [reflexivity|].
  intros xs Hlen Hne.
  destruct (eval_addition_mix _ _ peso materials lo_terms min_mix xs
              Hlo Hmin Hlen Hne) as (cs & Hcs & v & Hv & Hveq).
  destruct (eval_addition_mix _ _ peso materials hi_terms max_mix xs
              Hhi Hmax Hlen Hne) as (cs' & Hcs' & w & Hw & Hweq).
  unfold chemistry_of in Hlow, Hhigh.
  rewrite Hlow in Hcs; inversion Hcs; subst cs.
  rewrite Hhigh in Hcs'; inversion Hcs'; subst cs'.
  split; [eauto|]. split; [eauto|].
  simpl. rewrite !andb_true_iff.
  rewrite (holds_at_most xs max_mix hi w _ Hw Hweq).
  rewrite (holds_at_least xs min_mix lo v _ Hv Hveq).
  tauto.
Qed.

Lemma mapM_compose {A B C} (f : A -> result B) (g : B -> result C)
    (l : list A) (bs : list B) (cs : list C) :
  mapM f l = Ok bs -> mapM g bs = Ok cs ->
  mapM (fun a => b <- f a ;; g b) l = Ok cs.
Proof.
  revert bs cs; induction l as [|a l IH]; simpl; intros bs cs Hf Hg.
  - inversion Hf; subst. simpl in Hg. assumption.
  - bind_inv Hf as b Hb. bind_inv Hf as bs' Hbs. inversion Hf; subst.
    simpl in Hg. bind_inv Hg as c Hc. bind_inv Hg as cs' Hcs.
    inversion Hg; subst.
    rewrite Hb; simpl. rewrite Hc; simpl. now rewrite (IH bs' cs').
Qed.

(** The objective [sum(x[i]*cost[i])] at an assignment. *)
Lemma eval_cost_terms (md : value) (materials : list string)
    (cost : list value) (terms : list expr) :
  mapM (fun mi => material_field md mi "cost") materials = Ok cost ->
  cost_terms (vars (List.length materials)) cost (List.length materials)
  = Ok terms ->
  exists costs,
    unit_costs md materials = Ok costs /\
    forall ys, List.length ys = List.length materials ->
      eval ys (sum terms)
      = Some (Py.sum (map (fun p => fst p * snd p) (combine ys costs))).
Proof.
  intros Hcost Hterms.
  pose proof (mapM_length _ _ _ Hcost) as Hlen.
  unfold cost_terms in Hterms.
  replace (seq 0 (List.length materials)) with (seq 0 (List.length cost))
    in Hterms by now rewrite Hlen.
  rewrite (mapM_range_zip
             (fun xi ci => c <- as_num ci ;; Ok (mul xi (EConst c)))
             (vars (List.length materials)) cost) in Hterms
    by (rewrite vars_length; lia).
  change (terms_of as_num (vars (List.length materials)) cost = Ok terms)
    in Hterms.
  pose proof (eval_vars (repeat 0 (List.length materials))) as Hv0.
  rewrite repeat_length in Hv0.
  destruct (eval_terms_of as_num _ cost _ _ terms Hv0
              (eq_trans (vars_length _) (eq_sym Hlen)) Hterms)
    as (costs & Hcosts & _).
  exists costs. split.
  - unfold unit_costs. eapply mapM_compose; eassumption.
  - intros ys Hys.
    pose proof (eval_vars ys) as Hv. rewrite Hys in Hv.
    destruct (eval_terms_of as_num ys cost _ ys terms Hv
                (eq_trans (vars_length _) (eq_sym Hlen)) Hterms)
      as (costs' & Hcosts' & Hev).
    rewrite Hcosts in Hcosts'; inversion Hcosts'; subst costs'.
    now apply eval_sum.
Qed.

Lemma adicion_model_parts (md ai : value) (peso : Q) (cq : value)
    (m : model) (x : list expr) :
  CalculoCargaEaf.adicion_model md ai peso cq = Ok (m, x) ->
  addition_design_model md ai peso cq m x /\
  exists materials costs,
    keys md = Ok materials /\
    unit_costs md materials = Ok costs /\
    List.length (variables m) = List.length materials /\
    Forall (fun v => gv_lb v = Some 0) (variables m) /\
    forall ys, List.length ys = List.length materials ->
      objective m ys
      = Some (0 + Py.sum (map (fun p => fst p * snd p) (combine ys costs))).
Proof.
  intros H. unfold CalculoCargaEaf.adicion_model in H.
  bind_inv H as materials Hmat. bind_inv H as amin Hamin.
  bind_inv H as elements Hel.
  bind_inv H as cost Hcost. bind_inv H as stock Hstock.
  bind_inv H as st Hdecl. destruct st as [m0 x0].
  apply declare_variables_spec in Hdecl.
  destruct Hdecl as (-> & Heq0 & Hobj0 & Hlen0 & Hlb0).
  bind_inv H as m1 Hchem. bind_inv H as terms Hterms.
  inversion H; subst m x; clear H.
  rewrite (foldM_append _
             (addition_block md ai peso cq materials
                (vars (List.length materials))
                (add (EConst peso) (sum (vars (List.length materials))))))
    in Hchem by (intros; apply adicion_constraints_block, vars_length).
  bind_inv Hchem as blocks Hblocks. inversion Hchem; subst m1; clear Hchem.
  destruct (eval_cost_terms md materials cost terms Hcost Hterms)
    as (costs & Hcosts & Hev).
  split.
  - exists materials, amin, elements, blocks. simpl.
    rewrite Heq0. repeat split; try assumption; try reflexivity.
    apply mapM_Forall2 in Hblocks.
    eapply Forall2_impl; [|exact Hblocks].
    intros e block Hb. apply addition_block_meaning in Hb.
    destruct Hb as (measured & amin' & amax & lo & hi & low & high
                    & ? & Hamin' & ? & ? & ? & ? & ? & ?).
    rewrite Hamin in Hamin'; inversion Hamin'; subst amin'.
    now exists measured, amax, lo, hi, low, high.
  - exists materials, costs. simpl.
    repeat split; try assumption.
    intros ys Hys. unfold objective; simpl. rewrite Hobj0; simpl.
    now rewrite (Hev ys Hys).
Qed.

(** C2, at the values of [main]: a heat of 12000 kg measured at 0.30 % C,
    final bounds 0.28 % to 0.32 % C, and [carbon] (99 % to 100 % C) to add.
    The model has the two tightening equations and no other, but the
    measured value enters them as 0.30 while chemistry and bounds are
    divided by 100: at zero addition both mixes evaluate to 0.30 against the
    bounds 0.0028 and 0.0032, and the equation on the high mix fails.  With
    the measured chemistry as a weight fraction, as the specification has it, the
    zero-addition mix is 0.003, inside the bounds. *)
Theorem measured_chemistry_enters_unnormalized :
  match CalculoCargaEaf.adicion_model catalog_carbon final_spec 12000
          colada_quimica_percent with
  | Ok (m, x) =>
      match equations m with
      | [high; low] =>
          match eq_cmp high, eq_cmp low with
          | CmpLe, CmpGe =>
              value_is (eval [0] (eq_lhs high)) 0.30 &&
              value_is (eval [0] (eq_lhs low)) 0.30 &&
              value_is (eval [0] (eq_rhs high)) 0.0032 &&
              value_is (eval [0] (eq_rhs low)) 0.0028 &&
              negb (holds [0] high) && holds [0] low
          | _, _ => false
          end
      | _ => false
      end
  | Raise _ => false
  end = true /\
  yields (spec_addition_mix (VNum 0.30) 12000 [0] [1]) 0.003 /\
  in_range 0.0028 0.0032 0.003.
Proof.
  split; [vm_compute; reflexivity|].
  split; [eexists; split; [reflexivity | vm_compute; reflexivity]|].
  unfold in_range; split; unfold Qle; simpl; lia.
Qed.

(** ** Feasible additions *)

Lemma within_all_nonneg (vs : list gvar) (ys : list Q) :
  Forall (fun v => gv_lb v = Some 0) vs ->
  within_all vs ys = true ->
  List.length ys = List.length vs /\ Forall (fun y => 0 <= y) ys.
Proof.
  intros Hlb. revert ys. induction Hlb as [|v vs Hv _ IH]; intros [|y ys] H;
    simpl in H; try discriminate.
  - split; [reflexivity | constructor].
  - apply andb_true_iff in H. destruct H as [Hw H].
    destruct (IH ys H) as [Hlen Hall].
    split; [simpl; congruence|]. constructor; [|assumption].
    unfold within in Hw. rewrite Hv in Hw.
    apply andb_true_iff in Hw. destruct Hw as [Hw _].
    now apply Qle_bool_iff in Hw.
Qed.

(** ** The addition model at the values of [main] *)

Lemma div_above (a d h : Q) : 0 < d -> h * d < a -> ~ a / d <= h.
Proof.
  intros Hd Hlt Hle.
  assert (Ha : a == a / d * d) by (field; lra).
  assert (Hm : a / d * d <= h * d) by (apply Qmult_le_compat_r; lra).
  lra.
Qed.

(** With the measured 0.30 entering unnormalized, no addition of carbon
    satisfies the equations: the model of the already compliant heat is
    infeasible. *)
Lemma compliant_heat_model_is_infeasible (y : Q) :
  feasible (model_of (CalculoCargaEaf.adicion_model catalog_carbon final_spec
                        12000 colada_quimica_percent)) [y] = false.
Proof.
  set (r := CalculoCargaEaf.adicion_model catalog_carbon final_spec 12000
              colada_quimica_percent).
  assert (Hr : r = Ok (model_of r, variables_of r))
    by (vm_compute; reflexivity).
  destruct (adicion_model_parts _ _ _ _ _ _ Hr)
    as ((materials & amin & elements & blocks & Hk & Hamin & Hel & _ & Heq & HF)
        & materials' & costs & Hk' & _ & Hlen & Hlb & _).
  simpl in Hk, Hk', Hamin. inversion Hk; subst materials; clear Hk.
  inversion Hk'; subst materials'; clear Hk'.
  inversion Hamin; subst amin; clear Hamin.
  simpl in Hel. inversion Hel; subst elements; clear Hel.
  inversion HF as [|e block es bs Hblock Hrest]; subst.
  inversion Hrest; subst; clear Hrest HF.
  destruct Hblock as (measured & amax & lo & hi & low & high
                      & Hmeas & Hamax & Hlo & Hhi & Hlow & Hhigh & Htwo).
  simpl in Hmeas. inversion Hmeas; subst measured; clear Hmeas.
  simpl in Hamax. inversion Hamax; subst amax; clear Hamax.
  vm_compute in Hhi. inversion Hhi; subst hi; clear Hhi.
  vm_compute in Hhigh. inversion Hhigh; subst high; clear Hhigh.
  destruct Htwo as (min_mix & max_mix & Hb & Hsem).
  destruct (feasible (model_of r) [y]) eqn:Hf; [exfalso|reflexivity].
  unfold feasible in Hf. apply andb_true_iff in Hf. destruct Hf as [Hw Hholds].
  destruct (within_all_nonneg _ _ Hlb Hw) as [_ Hy].
  inversion Hy as [|? ? Hy0 _]; subst.
  rewrite Heq in Hholds. simpl in Hholds.
  assert (Hsum : Py.sum [y] == y) by (unfold Py.sum; simpl; ring).
  destruct (Hsem [y] eq_refl) as (_ & _ & Hiff).
  { rewrite Hsum. lra. }
  apply Hiff in Hholds. destruct Hholds as [_ Hhigh].
  unfold addition_mix, weighted_sum in Hhigh. simpl in Hhigh.
  revert Hhigh. apply div_above.
  - rewrite Hsum. lra.
  - rewrite Hsum. lra.
Qed.

(** C3, at the specification's third scenario, which has the values of
    [main]: a heat of 12000 kg measured at 0.30 % C, final bounds 0.28 % to
    0.32 % C, and [carbon] at cost 5 to add.  The measured chemistry
    satisfies the bounds, and the zero-addition mixes of the specification
    are 0.003, inside 0.0028 to 0.0032; yet in the model the code builds the
    all-zero assignment is not feasible, no assignment is, and so the model
    has no optimum at all. *)
Theorem compliant_heat_has_no_optimal_addition :
  let r := CalculoCargaEaf.adicion_model catalog_carbon final_spec 12000
             colada_quimica_percent in
  returns r = true /\
  in_range 0.28 0.32 0.30 /\
  yields (spec_addition_mix (VNum 0.30) 12000 (zeros 1) [0.99]) 0.003 /\
  yields (spec_addition_mix (VNum 0.30) 12000 (zeros 1) [1]) 0.003 /\
  in_range 0.0028 0.0032 0.003 /\
  feasible (model_of r) (zeros 1) = false /\
  (forall ys, feasible (model_of r) ys = false) /\
  (forall ys, ~ optimal (model_of r) ys).
Proof.
  intros r.
  assert (Hall : forall ys, feasible (model_of r) ys = false).
  { intros ys. destruct ys as [|y [|y' ys]].
    - vm_compute. reflexivity.
    - apply compliant_heat_model_is_infeasible.
    - assert (Hv : exists v, variables (model_of r) = [v])
        by (eexists; vm_compute; reflexivity).
      destruct Hv as (v & Hv). unfold feasible. rewrite Hv. simpl.
      now rewrite andb_false_r. }
  split; [vm_compute; reflexivity|].
  split; [unfold in_range; split; unfold Qle; simpl; lia|].
  split; [eexists; split; [reflexivity | vm_compute; reflexivity]|].
  split; [eexists; split; [reflexivity | vm_compute; reflexivity]|].
  split; [unfold in_range; split; unfold Qle; simpl; lia|].
  split; [apply Hall|].
  split; [exact Hall|].
  intros ys (Hf & _). rewrite Hall in Hf. discriminate.
Qed.

(** * Further properties of the builders and the reports *)

(** ** What a charge model is made of *)

Lemma declare_from_vars (valf : nat -> result float64) (stock : list value) :
  forall (n k : nat) (m m' : model) (x x' : list expr),
    foldM (fun '(m, x) i =>
             v <- valf i ;;
             s <- index stock i ;;
             ub <- upper_bound s ;;
             let '(m', xi) := Var m v (Some 0) ub in
             Ok (m', (x ++ [xi])%list))
          (seq k n) (m, x) = Ok (m', x') ->
    exists vs, variables m' = (variables m ++ vs)%list /\
               Forall2 (declared valf stock) (seq k n) vs.
Proof.
  induction n as [|n IH]; intros k m m' x x' H; simpl in H.
  - inversion H; subst. exists []. rewrite app_nil_r. split; [auto|constructor].
  - bind_inv H as st Hst. bind_inv Hst as v Hv. bind_inv Hst as s Hs.
    bind_inv Hst as ub Hub. simpl in Hst. inversion Hst; subst st; clear Hst.
    apply IH in H. destruct H as (vs & Hvs & HF). simpl in Hvs.
    exists (mkVar v (Some 0) ub :: vs). split.
    + rewrite Hvs, <- app_assoc. reflexivity.
    + constructor; [|assumption].
      unfold declared; simpl. repeat split; eauto.
Qed.

Lemma floor_match (n : nat) (hw : Q) (m m' : model)
    (indices : list nat) (pct : value) :
  match indices with
  | [] => Ok m
  | _ =>
      pct <- as_num pct ;;
      if gt pct 0 then
        xs <- pick (vars n) indices ;;
        Ok (Equation m (at_least (sum xs) (EConst (pct * hw))))
      else Ok m
  end = Ok m' ->
  exists b, floor_block n hw indices pct = Ok b /\ m' = add_equations m b.
Proof.
  intros H. unfold floor_block.
  destruct indices as [|i l].
  - inversion H; subst. exists []. now rewrite add_equations_nil.
  - bind_inv H as q Hq. rewrite Hq; simpl.
    destruct (gt q 0).
    + bind_inv H as xs Hxs. rewrite Hxs; simpl. inversion H; subst.
      eexists; split; [reflexivity | apply Equation_add].
    + inversion H; subst. exists []. now rewrite add_equations_nil.
Qed.

Lemma ceiling_match (n : nat) (hw : Q) (m m' : model)
    (indices : list nat) (cap : value) :
  match indices, cap with
  | [], _ => Ok m
  | _, VNone => Ok m
  | _, _ =>
      cap <- as_num cap ;;
      xs <- pick (vars n) indices ;;
      Ok (Equation m (at_most (sum xs) (EConst (cap * hw))))
  end = Ok m' ->
  exists b, ceiling_block n hw indices cap = Ok b /\ m' = add_equations m b.
Proof.
  intros H. unfold ceiling_block.
  assert (Hnone : Ok m = Ok m' ->
            exists b, Ok [] = Ok b /\ m' = add_equations m b).
  { intros E; inversion E; subst. exists []. now rewrite add_equations_nil. }
  destruct indices as [|i l]; [auto|].
  destruct cap as [|c|t|d]; [auto| | |]; simpl in H; try discriminate.
  bind_inv H as xs Hxs. simpl. rewrite Hxs; simpl. inversion H; subst.
  eexists; split; [reflexivity | apply Equation_add].
Qed.

Lemma charge_model_anatomy
    (seed : value -> value -> value -> list string -> list string ->
            list Q -> list Q -> Q -> result (list float64))
    (md ci : value) (hw : Q) (m : model) (x : list expr) :
  charge_model seed md ci hw = Ok (m, x) ->
  charge_anatomy seed md ci hw m x.
Proof.
  intros H. unfold charge_model in H.
  bind_inv H as cmin Hcmin. bind_inv H as cmax Hcmax.
  bind_inv H as pct Hpct. bind_inv H as cap Hcap.
  bind_inv H as materials Hmat. bind_inv H as elements Hel.
  bind_inv H as cost Hcost. bind_inv H as stock Hstock.
  bind_inv H as mat_min Hmin. bind_inv H as mat_max Hmax.
  bind_inv H as initial Hseed.
  bind_inv H as st Hdecl. destruct st as [m0 x0].
  pose proof Hdecl as Hdecl'.
  apply declare_variables_spec in Hdecl.
  destruct Hdecl as (-> & Heq0 & Hobj0 & _ & _).
  unfold Common.declare_variables in Hdecl'.
  apply (declare_from_vars (index initial) stock) in Hdecl'.
  destruct Hdecl' as (vs & Hvs & HF). simpl in Hvs.
  bind_inv H as acero Hacero. bind_inv H as m1 Hm1.
  bind_inv H as rets Hrets. bind_inv H as m2 Hm2.
  bind_inv H as m3 Hchem. bind_inv H as m4 Hfrac.
  bind_inv H as terms Hterms. inversion H; subst m x; clear H.
  apply floor_match in Hm1. destruct Hm1 as (floor & Hfloor & ->).
  apply ceiling_match in Hm2. destruct Hm2 as (ceiling & Hceiling & ->).
  rewrite (foldM_append _
             (fun e =>
                range_block hw (fun side mi => material_chemistry md mi side e)
                  normalize_chemistry_value materials cmin cmax
                  (vars (List.length materials)) e)) in Hchem
    by (intros; apply chemistry_constraints_block, vars_length).
  bind_inv Hchem as blocks Hblocks. inversion Hchem; subst m3; clear Hchem.
  rewrite (foldM_append _
             (fraction_block hw (vars (List.length materials)) mat_min mat_max))
    in Hfrac by (intros; apply fraction_constraints_block).
  bind_inv Hfrac as fblocks Hfblocks. inversion Hfrac; subst m4; clear Hfrac.
  eapply (Anatomy seed md ci hw _ _ cmin cmax pct cap materials elements
            cost stock mat_min mat_max initial acero rets floor ceiling
            blocks fblocks terms); try eassumption; try reflexivity.
  - simpl. rewrite Hvs. exact HF.
  - simpl. rewrite Heq0. simpl. now rewrite <- !app_assoc.
  - simpl. now rewrite Hobj0.
Qed.

Lemma built_charge_model_anatomy (md ci : value) (hw : Q)
    (m : model) (x : list expr) :
  built_charge_model md ci hw m x ->
  exists seed, charge_anatomy seed md ci hw m x.
Proof.
  intros [H|H]; eexists; apply charge_model_anatomy; exact H.
Qed.

(** ** Lists *)

Lemma Forall2_nth_error {A B} (R : A -> B -> Prop) (l1 : list A) (l2 : list B)
    (i : nat) (a : A) :
  Forall2 R l1 l2 -> nth_error l1 i = Some a ->
  exists b, nth_error l2 i = Some b /\ R a b.
Proof.
  intros HF. revert i. induction HF as [|a' b' l1 l2 Hab _ IH]; intros i Hi.
  - destruct i; discriminate.
  - destruct i as [|i]; simpl in *.
    + inversion Hi; subst. eauto.
    + eauto.
Qed.

Lemma Forall2_nth_error_r {A B} (R : A -> B -> Prop) (l1 : list A)
    (l2 : list B) (i : nat) (b : B) :
  Forall2 R l1 l2 -> nth_error l2 i = Some b ->
  exists a, nth_error l1 i = Some a /\ R a b.
Proof.
  intros HF. revert i. induction HF as [|a' b' l1 l2 Hab _ IH]; intros i Hi.
  - destruct i; discriminate.
  - destruct i as [|i]; simpl in *.
    + inversion Hi; subst. eauto.
    + eauto.
Qed.

Lemma nth_error_seq0 (n i : nat) :
  (i < n)%nat -> nth_error (seq 0 n) i = Some i.
Proof.
  intros Hi. rewrite nth_error_seq.
  destruct (Nat.ltb_spec i n); [reflexivity | lia].
Qed.

Lemma entry_nth_error (xs : list Q) (i : nat) (v : Q) :
  nth_error xs i = Some v -> entry xs i = v.
Proof. intros H. unfold entry. now apply nth_error_nth. Qed.

Lemma nth_error_entry (xs : list Q) (i : nat) :
  (i < List.length xs)%nat -> nth_error xs i = Some (entry xs i).
Proof.
  intros Hi. unfold entry.
  destruct (nth_error xs i) as [v|] eqn:E.
  - now rewrite (nth_error_nth _ _ _ E).
  - apply nth_error_None in E. lia.
Qed.

Lemma forallb_concat_In {A} (f : A -> bool) (ls : list (list A)) (l : list A) :
  forallb f (List.concat ls) = true -> In l ls -> forallb f l = true.
Proof.
  induction ls as [|l' ls IH]; simpl; intros H Hin; [tauto|].
  rewrite forallb_app in H. apply andb_true_iff in H. destruct H as [H1 H2].
  destruct Hin as [->|Hin]; auto.
Qed.

Lemma mapM_nth_error {A B} (f : A -> result B) (l : list A) (bs : list B)
    (i : nat) (a : A) :
  mapM f l = Ok bs -> nth_error l i = Some a ->
  exists b, nth_error bs i = Some b /\ f a = Ok b.
Proof.
  intros H Hi. apply mapM_Forall2 in H.
  exact (Forall2_nth_error _ _ _ _ _ H Hi).
Qed.

Lemma within_all_Forall2 (vs : list gvar) (xs : list Q) :
  within_all vs xs = true -> Forall2 (fun v x => within v x = true) vs xs.
Proof.
  revert xs; induction vs as [|v vs IH]; intros [|x xs] H; simpl in H;
    try discriminate; constructor.
  - apply andb_true_iff in H. tauto.
  - apply IH. apply andb_true_iff in H. tauto.
Qed.

(** ** Feasible assignments of a charge model *)

Lemma feasible_length (seed : value -> value -> value -> list string ->
    list string -> list Q -> list Q -> Q -> result (list float64))
    (md ci : value) (hw : Q) (m : model) (x : list expr)
    (materials : list string) (xs : list Q) :
  charge_anatomy seed md ci hw m x -> keys md = Ok materials ->
  feasible m xs = true ->
  List.length xs = List.length materials /\
  Forall2 (fun v x => within v x = true) (variables m) xs /\
  forallb (holds xs) (equations m) = true.
Proof.
  intros [] Hk Hf. rewrite Hmaterials in Hk. inversion Hk; subst.
  unfold feasible in Hf. apply andb_true_iff in Hf. destruct Hf as [Hw He].
  apply within_all_Forall2 in Hw.
  repeat split; try assumption.
  apply Forall2_length in Hw. apply Forall2_length in Hvars.
  rewrite length_seq in Hvars. congruence.
Qed.

Lemma holds_total_mass (xs : list Q) (hw : Q) :
  holds xs (equal (sum (vars (List.length xs))) (EConst hw)) = true
  <-> Py.sum xs == hw.
Proof.
  unfold holds; simpl.
  change (fold_left add (vars (List.length xs)) (EConst 0))
    with (sum (vars (List.length xs))).
  rewrite eval_sum_vars. simpl. apply Qeq_bool_iff.
Qed.

Lemma feasible_sum (seed : value -> value -> value -> list string ->
    list string -> list Q -> list Q -> Q -> result (list float64))
    (md ci : value) (hw : Q) (m : model) (x : list expr)
    (materials : list string) (xs : list Q) :
  charge_anatomy seed md ci hw m x -> keys md = Ok materials ->
  feasible m xs = true -> Py.sum xs == hw.
Proof.
  intros Ha Hkeys Hfeasible.
  destruct (feasible_length _ _ _ _ _ _ _ _ Ha Hkeys Hfeasible)
    as (Hlen & _ & He).
  destruct Ha. rewrite Hmaterials in Hkeys; inversion Hkeys; subst.
  rewrite Hequations in He. simpl in He.
  apply andb_true_iff in He. destruct He as [Hmass _].
  rewrite <- Hlen in Hmass. now apply holds_total_mass.
Qed.

(** X1.  Every assignment that is feasible for a charge model has one mass
    per material of the catalog, and the masses add up to the target
    weight. *)
Theorem feasible_charge_has_target_weight
    (md ci : value) (hw : Q) (m : model) (x : list expr)
    (materials : list string) (xs : list Q)
    (Hbuilt : built_charge_model md ci hw m x)
    (Hkeys : keys md = Ok materials)
    (Hfeasible : feasible m xs = true) :
  List.length xs = List.length materials /\ Py.sum xs == hw.
Proof.
  destruct (built_charge_model_anatomy _ _ _ _ _ Hbuilt) as (seed & Ha).
  split.
  - exact (proj1 (feasible_length _ _ _ _ _ _ _ _ Ha Hkeys Hfeasible)).
  - exact (feasible_sum _ _ _ _ _ _ _ _ Ha Hkeys Hfeasible).
Qed.

Lemma feasible_charge_has_target_weight_witness :
  Py.sum [50; 50; 0] == 100.
Proof.
  refine (proj2 (feasible_charge_has_target_weight catalog_recipe charge_spec
            100
            (model_of (EafChargeGekko.create_optimization_model
                         catalog_recipe charge_spec 100))
            (variables_of (EafChargeGekko.create_optimization_model
                             catalog_recipe charge_spec 100))
            ["fierro_Primera"; "Retornos_CM"; "cal"] [50; 50; 0] _ _ _)).
  - left. vm_compute. reflexivity.
  - reflexivity.
  - vm_compute. reflexivity.
Defined.

Lemma feasible_variable (seed : value -> value -> value -> list string ->
    list string -> list Q -> list Q -> Q -> result (list float64))
    (md ci : value) (hw : Q) (m : model) (x : list expr)
    (materials : list string) (xs : list Q) (i : nat) (name : string) :
  charge_anatomy seed md ci hw m x -> keys md = Ok materials ->
  feasible m xs = true -> nth_error materials i = Some name ->
  nth_error xs i = Some (entry xs i) /\
  exists v s, within v (entry xs i) = true /\ gv_lb v = Some 0 /\
    material_field md name "stock" = Ok s /\ upper_bound s = Ok (gv_ub v).
Proof.
  intros Ha Hk Hf Hi.
  destruct (feasible_length _ _ _ _ _ _ _ _ Ha Hk Hf) as (Hlen & Hw & _).
  destruct Ha. rewrite Hmaterials in Hk; inversion Hk; subst.
  assert (Hlt : (i < List.length materials)%nat)
    by (apply nth_error_Some; congruence).
  split; [apply nth_error_entry; lia|].
  destruct (Forall2_nth_error _ _ _ _ _ Hvars (nth_error_seq0 _ _ Hlt))
    as (v & Hv & _ & Hlb & s & Hs & Hub).
  destruct (Forall2_nth_error _ _ _ _ _ Hw Hv) as (q & Hq & Hwq).
  rewrite (entry_nth_error _ _ _ Hq).
  exists v, s. repeat split; try assumption.
  destruct (mapM_nth_error _ _ _ _ _ Hstock Hi) as (s' & Hs' & Hfield).
  unfold index in Hs. rewrite Hs' in Hs. inversion Hs; subst. assumption.
Qed.

Lemma feasible_bounds (seed : value -> value -> value -> list string ->
    list string -> list Q -> list Q -> Q -> result (list float64))
    (md ci : value) (hw : Q) (m : model) (x : list expr)
    (materials : list string) (xs : list Q) (i : nat) (name : string) :
  charge_anatomy seed md ci hw m x -> keys md = Ok materials ->
  feasible m xs = true -> nth_error materials i = Some name ->
  0 <= entry xs i /\
  (forall s, material_field md name "stock" = Ok (VNum s) -> entry xs i <= s).
Proof.
  intros Ha Hkeys Hfeasible Hname.
  destruct (feasible_variable _ _ _ _ _ _ _ _ _ _ Ha Hkeys Hfeasible Hname)
    as (_ & v & s & Hw & Hlb & Hs & Hub).
  unfold within in Hw. rewrite Hlb in Hw.
  apply andb_true_iff in Hw. destruct Hw as [H0 Hu].
  split; [now apply Qle_bool_iff|].
  intros s' Hs'. rewrite Hs in Hs'. inversion Hs'; subst s.
  simpl in Hub. inversion Hub as [Hub']. rewrite <- Hub' in Hu.
  now apply Qle_bool_iff.
Qed.

(** X2.  In every assignment feasible for a charge model no mass is
    negative, and the mass of a material whose stock is a number does not
    exceed that stock. *)
Theorem feasible_charge_respects_stock
    (md ci : value) (hw : Q) (m : model) (x : list expr)
    (materials : list string) (xs : list Q) (i : nat) (name : string)
    (Hbuilt : built_charge_model md ci hw m x)
    (Hkeys : keys md = Ok materials)
    (Hfeasible : feasible m xs = true)
    (Hname : nth_error materials i = Some name) :
  0 <= entry xs i /\
  (forall s, material_field md name "stock" = Ok (VNum s) -> entry xs i <= s).
Proof.
  destruct (built_charge_model_anatomy _ _ _ _ _ Hbuilt) as (seed & Ha).
  eapply feasible_bounds; eassumption.
Qed.

Lemma feasible_charge_respects_stock_witness :
  0 <= entry [50; 50; 0] 1 /\
  (forall s, material_field catalog_recipe "Retornos_CM" "stock" = Ok (VNum s) ->
             entry [50; 50; 0] 1 <= s).
Proof.
  refine (feasible_charge_respects_stock catalog_recipe charge_spec 100
            (model_of (EafChargeGekko.create_optimization_model
                         catalog_recipe charge_spec 100))
            (variables_of (EafChargeGekko.create_optimization_model
                             catalog_recipe charge_spec 100))
            ["fierro_Primera"; "Retornos_CM"; "cal"] [50; 50; 0] 1
            "Retornos_CM" _ _ _ _).
  - left. vm_compute. reflexivity.
  - reflexivity.
  - vm_compute. reflexivity.
  - reflexivity.
Defined.

Lemma fraction_block_meaning (hw : Q) (n : nat) (mat_min mat_max : list Q)
    (i : nat) (b : list equation) :
  fraction_block hw (vars n) mat_min mat_max i = Ok b ->
  exists lo hi,
    index mat_min i = Ok lo /\ index mat_max i = Ok hi /\
    forall xs v, nth_error xs i = Some v ->
      (forallb (holds xs) b = true <->
       ~ hw == 0 /\ lo <= v / hw /\ v / hw <= hi).
Proof.
  unfold fraction_block. intros H.
  bind_inv H as xi Hxi. apply index_vars in Hxi. destruct Hxi as [-> _].
  simpl in H. bind_inv H as lo Hlo. bind_inv H as hi Hhi.
  inversion H; subst; clear H.
  exists lo, hi. split; [assumption|]. split; [assumption|].
  intros xs v Hv. simpl. unfold holds; simpl. rewrite Hv.
  destruct (Qeq_bool hw 0) eqn:E.
  - split; [discriminate|]. intros (Hne & _).
    apply Qeq_bool_eq in E. contradiction.
  - simpl. rewrite !andb_true_iff, !Qle_bool_iff. split.
    + intros (H1 & H2 & _). repeat split; auto.
      intros Hz. apply Qeq_eq_bool in Hz. congruence.
    + intros (_ & H1 & H2). auto.
Qed.

Lemma feasible_fraction (seed : value -> value -> value -> list string ->
    list string -> list Q -> list Q -> Q -> result (list float64))
    (md ci : value) (hw : Q) (m : model) (x : list expr)
    (materials : list string) (xs : list Q) (i : nat) (name : string)
    (lo hi : Q) :
  charge_anatomy seed md ci hw m x -> keys md = Ok materials ->
  feasible m xs = true -> nth_error materials i = Some name ->
  material_fraction md name "min" = Ok lo ->
  material_fraction md name "max" = Ok hi ->
  ~ hw == 0 /\ lo <= entry xs i / hw /\ entry xs i / hw <= hi.
Proof.
  intros Ha Hk Hf Hi Hlo Hhi.
  destruct (feasible_variable _ _ _ _ _ _ _ _ _ _ Ha Hk Hf Hi) as (Hx & _).
  destruct (feasible_length _ _ _ _ _ _ _ _ Ha Hk Hf) as (Hlen & _ & He).
  destruct Ha. rewrite Hmaterials in Hk; inversion Hk; subst.
  assert (Hlt : (i < List.length materials)%nat)
    by (apply nth_error_Some; congruence).
  destruct (mapM_nth_error _ _ _ _ _ Hfblocks (nth_error_seq0 _ _ Hlt))
    as (b & Hb & Hblock).
  rewrite Hequations in He. rewrite !forallb_app in He.
  repeat (apply andb_true_iff in He; destruct He as [_ He]).
  pose proof (forallb_concat_In _ _ _ He (nth_error_In _ _ Hb)) as Hall.
  destruct (fraction_block_meaning _ _ _ _ _ _ Hblock)
    as (lo' & hi' & Hlo' & Hhi' & Hiff).
  apply (Hiff xs _ Hx) in Hall.
  destruct (mapM_nth_error _ _ _ _ _ Hmin Hi) as (l & Hl & Hfl).
  destruct (mapM_nth_error _ _ _ _ _ Hmax Hi) as (h & Hh & Hfh).
  unfold index in Hlo', Hhi'. rewrite Hl in Hlo'. rewrite Hh in Hhi'.
  inversion Hlo'; inversion Hhi'; subst.
  rewrite Hlo in Hfl. rewrite Hhi in Hfh.
  inversion Hfl; inversion Hfh; subst. exact Hall.
Qed.

(** X3.  In every assignment feasible for a charge model the share
    [x_i / heat_weight] of each material lies between the fractions read
    from its ['min'] and ['max']. *)
Theorem feasible_charge_respects_fractions
    (md ci : value) (hw : Q) (m : model) (x : list expr)
    (materials : list string) (xs : list Q) (i : nat) (name : string)
    (lo hi : Q)
    (Hbuilt : built_charge_model md ci hw m x)
    (Hkeys : keys md = Ok materials)
    (Hfeasible : feasible m xs = true)
    (Hname : nth_error materials i = Some name)
    (Hlo : material_fraction md name "min" = Ok lo)
    (Hhi : material_fraction md name "max" = Ok hi) :
  lo <= entry xs i / hw /\ entry xs i / hw <= hi.
Proof.
  destruct (built_charge_model_anatomy _ _ _ _ _ Hbuilt) as (seed & Ha).
  eapply feasible_fraction; eassumption.
Qed.

Lemma feasible_charge_respects_fractions_witness :
  0 / 100 <= entry [50; 50; 0] 0 / 100 /\ entry [50; 50; 0] 0 / 100 <= 100 / 100.
Proof.
  refine (feasible_charge_respects_fractions catalog_recipe charge_spec 100
            (model_of (EafChargeGekko.create_optimization_model
                         catalog_recipe charge_spec 100))
            (variables_of (EafChargeGekko.create_optimization_model
                             catalog_recipe charge_spec 100))
            ["fierro_Primera"; "Retornos_CM"; "cal"] [50; 50; 0] 0
            "fierro_Primera" (0 / 100) (100 / 100) _ _ _ _ _ _).
  - left. vm_compute. reflexivity.
  - reflexivity.
  - vm_compute. reflexivity.
  - reflexivity.
  - reflexivity.
  - vm_compute. reflexivity.
Defined.

Lemma Forall2_from_nth {A B} (R : A -> B -> Prop) :
  forall (l1 : list A) (l2 : list B),
    List.length l1 = List.length l2 ->
    (forall i a b, nth_error l1 i = Some a -> nth_error l2 i = Some b -> R a b) ->
    Forall2 R l1 l2.
Proof.
  induction l1 as [|a l1 IH]; intros [|b l2] Hlen H; simpl in Hlen;
    try discriminate; constructor.
  - apply (H 0%nat); reflexivity.
  - apply IH; [lia|]. intros i a' b' Ha Hb. apply (H (S i)); assumption.
Qed.

Lemma sum_le (l1 l2 : list Q) :
  Forall2 Qle l1 l2 -> Py.sum l1 <= Py.sum l2.
Proof.
  induction 1 as [|a b l1 l2 Hab _ IH]; [apply Qle_refl|].
  rewrite !sum_cons. lra.
Qed.

(** X4.  When every stock is a number and the stocks add up to less than
    the target weight, the charge model has no feasible assignment. *)
Theorem insufficient_stock_is_infeasible
    (md ci : value) (hw : Q) (m : model) (x : list expr)
    (materials : list string) (caps : list Q)
    (Hbuilt : built_charge_model md ci hw m x)
    (Hkeys : keys md = Ok materials)
    (Hcaps : stock_caps md materials = Ok caps)
    (Hshort : Py.sum caps < hw) :
  forall xs, feasible m xs = false.
Proof.
  intros xs. destruct (feasible m xs) eqn:Hf; [exfalso|reflexivity].
  destruct (built_charge_model_anatomy _ _ _ _ _ Hbuilt) as (seed & Hm).
  pose proof (proj1 (feasible_length _ _ _ _ _ _ _ _ Hm Hkeys Hf)) as Hlen.
  pose proof (feasible_sum _ _ _ _ _ _ _ _ Hm Hkeys Hf) as Hsum.
  assert (Hle : Forall2 Qle xs caps).
  { apply Forall2_from_nth.
    - unfold stock_caps in Hcaps. apply mapM_length in Hcaps. congruence.
    - intros i a c Ha Hc.
      destruct (Forall2_nth_error_r _ _ _ _ _ (mapM_Forall2 _ _ _ Hcaps) Hc)
        as (name & Hname & Hread).
      destruct (feasible_bounds _ _ _ _ _ _ _ _ _ _
                  Hm Hkeys Hf Hname) as (_ & Hub).
      rewrite (entry_nth_error _ _ _ Ha) in Hub. apply Hub.
      bind_inv Hread as v Hv. destruct v; simpl in Hread; try discriminate.
      inversion Hread; subst. assumption. }
  apply sum_le in Hle. lra.
Qed.

Lemma insufficient_stock_is_infeasible_witness :
  feasible (model_of (EafChargeGekko.create_optimization_model
                        catalog_recipe charge_spec 20000))
           [10000; 10000; 0] = false.
Proof.
  refine (insufficient_stock_is_infeasible catalog_recipe charge_spec 20000 _
            (variables_of (EafChargeGekko.create_optimization_model
                             catalog_recipe charge_spec 20000))
            ["fierro_Primera"; "Retornos_CM"; "cal"] [100; 100; 10] _ _ _ _
            [10000; 10000; 0]).
  - left. vm_compute. reflexivity.
  - reflexivity.
  - reflexivity.
  - vm_compute. reflexivity.
Defined.

(** X5.  A catalog in which a material's minimum fraction exceeds its
    maximum fraction is not rejected: the builders build its model, and the
    model has no feasible assignment. *)
Theorem inverted_fractions_are_infeasible
    (md ci : value) (hw : Q) (m : model) (x : list expr)
    (materials : list string) (i : nat) (name : string) (lo hi : Q)
    (Hbuilt : built_charge_model md ci hw m x)
    (Hkeys : keys md = Ok materials)
    (Hname : nth_error materials i = Some name)
    (Hlo : material_fraction md name "min" = Ok lo)
    (Hhi : material_fraction md name "max" = Ok hi)
    (Hinverted : hi < lo) :
  forall xs, feasible m xs = false.
Proof.
  intros xs. destruct (feasible m xs) eqn:Hf; [exfalso|reflexivity].
  destruct (built_charge_model_anatomy _ _ _ _ _ Hbuilt) as (seed & Hm).
  destruct (feasible_fraction _ _ _ _ _ _ _ _ _ _ _ _
              Hm Hkeys Hf Hname Hlo Hhi) as (_ & ? & ?). lra.
Qed.

Lemma inverted_fractions_are_infeasible_witness :
  returns (CalculoCargaEaf.crear_modelelo catalog_inverted charge_spec 100)
  = true /\
  forall xs,
    feasible (model_of (CalculoCargaEaf.crear_modelelo
                          catalog_inverted charge_spec 100)) xs = false.
Proof.
  split; [vm_compute; reflexivity|].
  refine (inverted_fractions_are_infeasible catalog_inverted charge_spec 100 _
            (variables_of (CalculoCargaEaf.crear_modelelo
                             catalog_inverted charge_spec 100))
            ["fierro_Primera"; "Retornos_CM"] 0 "fierro_Primera"
            (60 / 100) (40 / 100) _ _ _ _ _ _).
  - right. vm_compute. reflexivity.
  - reflexivity.
  - reflexivity.
  - reflexivity.
  - reflexivity.
  - vm_compute. reflexivity.
Defined.

(** ** Categories *)

Lemma indices_of_type_from (md : value) (materials : list string)
    (tag : string) :
  forall (l acc idx : list nat),
    foldM (fun acc i =>
             m_name <- index materials i ;;
             mat <- getitem md m_name ;;
             ty <- dict_get mat "type" (VStr "") ;;
             match ty with
             | VStr s =>
                 Ok (if String.eqb (lower s) tag then (acc ++ [i])%list else acc)
             | _ => Raise AttributeError
             end) l acc = Ok idx ->
    idx = (acc ++ filter (fun i => match nth_error materials i with
                                   | Some name => has_type md tag name
                                   | None => false
                                   end) l)%list.
Proof.
  induction l as [|i l IH]; intros acc idx H; simpl in H.
  - inversion H. now rewrite app_nil_r.
  - bind_inv H as acc' Hstep. bind_inv Hstep as name Hname.
    bind_inv Hstep as mat Hmat. bind_inv Hstep as ty Hty.
    destruct ty as [| |s|]; try discriminate. inversion Hstep; subst acc'.
    apply IH in H. cbn [filter].
    unfold index in Hname. destruct (nth_error materials i); [|discriminate].
    inversion Hname; subst.
    assert (Hh : has_type md tag name = String.eqb (lower s) tag)
      by (unfold has_type; now rewrite Hmat, Hty).
    rewrite Hh.
    destruct (String.eqb (lower s) tag); [|reflexivity].
    rewrite <- app_assoc. reflexivity.
Qed.

Lemma indices_of_type_positions (md : value) (materials : list string)
    (tag : string) (idx : list nat) :
  indices_of_type md materials tag = Ok idx ->
  idx = positions_of_type md materials tag.
Proof.
  intros Hidx. unfold indices_of_type in Hidx.
  apply indices_of_type_from in Hidx. exact Hidx.
Qed.

(** X6.  The materials of a category are those whose ['type'], put in lower
    case, is the category's tag; a material without ['type'] is in none.
    The positions come in catalog order. *)
Theorem indices_of_type_spec
    (md : value) (materials : list string) (tag : string) (idx : list nat)
    (Hidx : indices_of_type md materials tag = Ok idx) :
  idx = positions_of_type md materials tag /\
  (forall i, In i idx <->
     exists name, nth_error materials i = Some name /\
                  has_type md tag name = true) /\
  (forall name mat, getitem md name = Ok mat ->
     dict_get mat "type" (VStr "") = Ok (VStr "") ->
     tag <> "" -> has_type md tag name = false).
Proof.
  apply indices_of_type_positions in Hidx.
  split; [exact Hidx|]. split.
  - intros i. subst idx. unfold positions_of_type.
    rewrite filter_In, in_seq. split.
    + intros (_ & Ht). destruct (nth_error materials i) as [name|];
        [eauto | discriminate].
    + intros (name & Hn & Ht). rewrite Hn. split; [|assumption].
      assert ((i < List.length materials)%nat)
        by (apply nth_error_Some; congruence). lia.
  - intros name mat Hmat Hty Htag. unfold has_type. rewrite Hmat, Hty.
    simpl. destruct tag; [congruence | reflexivity].
Qed.

Lemma indices_of_type_spec_witness :
  [0%nat] = positions_of_type catalog_recipe
              ["fierro_Primera"; "Retornos_CM"; "cal"] "acero".
Proof.
  refine (proj1 (indices_of_type_spec catalog_recipe
                   ["fierro_Primera"; "Retornos_CM"; "cal"] "acero" [0%nat] _)).
  reflexivity.
Defined.

Lemma pick_vars_lt (n : nat) (indices : list nat) (xs : list expr) :
  pick (vars n) indices = Ok xs -> Forall (fun i => (i < n)%nat) indices.
Proof.
  unfold pick. revert xs.
  induction indices as [|i l IH]; simpl; intros xs H; [constructor|].
  bind_inv H as v Hv. bind_inv H as vs Hvs.
  apply index_vars in Hv. constructor; [tauto | eauto].
Qed.

Lemma eval_sum_picked (xs : list Q) (indices : list nat) :
  Forall (fun i => (i < List.length xs)%nat) indices ->
  eval xs (sum (map EVar indices))
  = Some (Py.sum (map (entry xs) indices)).
Proof.
  intros H. apply eval_sum.
  induction H as [|i l Hi _ IH]; simpl; [reflexivity|].
  rewrite IH. f_equal. now apply nth_error_entry.
Qed.

Lemma floor_block_meaning (n : nat) (hw : Q) (acero : list nat) (pct : value)
    (floor : list equation) (xs : list Q) :
  floor_block n hw acero pct = Ok floor -> List.length xs = n ->
  List.length floor = count (floor_applies acero pct) /\
  (forallb (holds xs) floor = true ->
   forall p, pct = VNum p -> acero <> [] -> 0 < p ->
     p * hw <= Py.sum (map (entry xs) acero)).
Proof.
  intros H Hlen. unfold floor_block in H.
  destruct acero as [|i l]; [inversion H; subst; simpl; split; [auto|tauto]|].
  bind_inv H as q Hq. destruct pct; simpl in Hq; try discriminate.
  inversion Hq; subst q0; clear Hq. simpl.
  destruct (gt q 0) eqn:Hgt.
  - bind_inv H as es Hes. inversion H; subst; clear H.
    split; [reflexivity|].
    intros Hall p Hp _ Hpos. inversion Hp; subst p.
    pose proof (pick_vars_lt _ _ _ Hes) as Hlt.
    apply pick_vars in Hes. subst es.
    simpl in Hall. apply andb_true_iff in Hall. destruct Hall as [Hall _].
    unfold holds in Hall; simpl in Hall.
    change (EVar i :: map EVar l) with (map EVar (i :: l)) in Hall.
    rewrite eval_sum_picked in Hall by assumption.
    simpl in Hall. now apply Qle_bool_iff in Hall.
  - inversion H; subst. split; [reflexivity|].
    intros _ p Hp _ Hpos. inversion Hp; subst p.
    unfold gt in Hgt. apply negb_false_iff in Hgt.
    apply Qle_bool_iff in Hgt. lra.
Qed.

Lemma ceiling_block_meaning (n : nat) (hw : Q) (rets : list nat) (cap : value)
    (ceiling : list equation) (xs : list Q) :
  ceiling_block n hw rets cap = Ok ceiling -> List.length xs = n ->
  List.length ceiling = count (ceiling_applies rets cap) /\
  (forallb (holds xs) ceiling = true ->
   forall c, cap = VNum c -> rets <> [] ->
     Py.sum (map (entry xs) rets) <= c * hw).
Proof.
  intros H Hlen. unfold ceiling_block in H.
  destruct rets as [|i l]; [inversion H; subst; simpl; split; [auto|tauto]|].
  destruct cap as [|q|t|d]; simpl in H; try discriminate.
  - inversion H; subst. split; [reflexivity|]. intros _ c Hc. discriminate.
  - bind_inv H as es Hes. inversion H; subst; clear H.
    split; [reflexivity|].
    intros Hall c Hc _. inversion Hc; subst c.
    pose proof (pick_vars_lt _ _ _ Hes) as Hlt.
    apply pick_vars in Hes. subst es.
    simpl in Hall. apply andb_true_iff in Hall. destruct Hall as [Hall _].
    unfold holds in Hall; simpl in Hall.
    change (EVar i :: map EVar l) with (map EVar (i :: l)) in Hall.
    rewrite eval_sum_picked in Hall by assumption.
    simpl in Hall. now apply Qle_bool_iff in Hall.
Qed.

(** X7.  In every assignment feasible for a charge model, when some
    material has type acero and [min_acero_pct] is a positive number, the
    masses of the acero materials add up to at least
    [min_acero_pct * heat_weight]; when some material has type returns and
    [max_returns] is a number, the masses of the returns materials add up to
    at most [max_returns * heat_weight]. *)
Theorem feasible_charge_respects_categories
    (md ci : value) (hw : Q) (m : model) (x : list expr)
    (materials : list string) (xs : list Q)
    (Hbuilt : built_charge_model md ci hw m x)
    (Hkeys : keys md = Ok materials)
    (Hfeasible : feasible m xs = true) :
  let acero := positions_of_type md materials "acero" in
  let rets := positions_of_type md materials "returns" in
  (forall p, dict_get ci "min_acero_pct" (VNum 0.0) = Ok (VNum p) ->
     acero <> [] -> 0 < p ->
     p * hw <= Py.sum (map (entry xs) acero)) /\
  (forall c, dict_get ci "max_returns" VNone = Ok (VNum c) ->
     rets <> [] ->
     Py.sum (map (entry xs) rets) <= c * hw).
Proof.
  intros acero rets.
  destruct (built_charge_model_anatomy _ _ _ _ _ Hbuilt) as (seed & Ha).
  destruct (feasible_length _ _ _ _ _ _ _ _ Ha Hkeys Hfeasible)
    as (Hlen & _ & He).
  destruct Ha. rewrite Hmaterials in Hkeys; inversion Hkeys; subst.
  pose proof (indices_of_type_positions _ _ _ _ Hacero) as Ha1.
  pose proof (indices_of_type_positions _ _ _ _ Hrets) as Hr1.
  rewrite Hequations in He. rewrite !forallb_app in He.
  apply andb_true_iff in He. destruct He as [_ He].
  apply andb_true_iff in He. destruct He as [Hfl He].
  apply andb_true_iff in He. destruct He as [Hce _].
  destruct (floor_block_meaning _ _ _ _ _ xs Hfloor Hlen) as (_ & Hf).
  destruct (ceiling_block_meaning _ _ _ _ _ xs Hceiling Hlen) as (_ & Hc).
  split.
  - intros p Hp Hne Hpos. rewrite Hpct in Hp. inversion Hp; subst pct.
    fold acero in Ha1. rewrite Ha1 in Hf. eapply Hf; eauto.
  - intros c Hcv Hne. rewrite Hcap in Hcv. inversion Hcv; subst cap.
    fold rets in Hr1. rewrite Hr1 in Hc. eapply Hc; eauto.
Qed.

Lemma feasible_charge_respects_categories_witness :
  0.5 * 100
  <= Py.sum (map (entry [50; 50; 0])
               (positions_of_type catalog_recipe
                  ["fierro_Primera"; "Retornos_CM"; "cal"] "acero")).
Proof.
  refine (proj1 (feasible_charge_respects_categories catalog_recipe
            charge_spec 100
            (model_of (EafChargeGekko.create_optimization_model
                         catalog_recipe charge_spec 100))
            (variables_of (EafChargeGekko.create_optimization_model
                             catalog_recipe charge_spec 100))
            ["fierro_Primera"; "Retornos_CM"; "cal"] [50; 50; 0] _ _ _)
            0.5 _ _ _).
  - left. vm_compute. reflexivity.
  - reflexivity.
  - vm_compute. reflexivity.
  - reflexivity.
  - vm_compute. discriminate.
  - reflexivity.
Defined.

(** ** How many equations *)

Lemma concat_length_const {A} (k : nat) (bs : list (list A)) :
  Forall (fun b => List.length b = k) bs ->
  List.length (List.concat bs) = (k * List.length bs)%nat.
Proof.
  induction 1 as [|b bs Hb _ IH]; simpl; [lia|].
  rewrite length_app, IH, Hb. lia.
Qed.

Lemma range_block_length (hw : Q) (coef : string -> string -> result Q)
    (bound : value -> result Q) (materials : list string)
    (cmin cmax : value) (x : list expr) (e : string) (b : list equation) :
  range_block hw coef bound materials cmin cmax x e = Ok b ->
  List.length b = 4%nat.
Proof.
  unfold range_block. intros H.
  repeat (let r := fresh "r" in let E := fresh "E" in
          apply bind_ok in H; destruct H as (r & E & H)).
  now inversion H.
Qed.

(** X8.  A charge model has one variable per material and
    [1 + floor + ceiling + 4 * elements + 2 * materials] equations, where
    the floor counts only when some material has type acero and
    [min_acero_pct] is positive, and the ceiling only when some material has
    type returns and [max_returns] is given: otherwise the category
    constraint is left out without notice. *)
Theorem charge_model_size
    (md ci cmin pct cap : value) (hw : Q) (m : model) (x : list expr)
    (materials elements : list string)
    (Hbuilt : built_charge_model md ci hw m x)
    (Hkeys : keys md = Ok materials)
    (Hcmin : getitem ci "min" = Ok cmin)
    (Helements : keys cmin = Ok elements)
    (Hpct : dict_get ci "min_acero_pct" (VNum 0.0) = Ok pct)
    (Hcap : dict_get ci "max_returns" VNone = Ok cap) :
  List.length (variables m) = List.length materials /\
  List.length x = List.length materials /\
  List.length (equations m)
  = (1 + count (floor_applies (positions_of_type md materials "acero") pct)
       + count (ceiling_applies (positions_of_type md materials "returns") cap)
       + 4 * List.length elements + 2 * List.length materials)%nat.
Proof.
  destruct (built_charge_model_anatomy _ _ _ _ _ Hbuilt) as (seed & Ha).
  destruct Ha.
  rewrite Hmaterials in Hkeys; inversion Hkeys; subst materials0.
  rewrite Hcmin0 in Hcmin; inversion Hcmin; subst cmin0.
  rewrite Helements0 in Helements; inversion Helements; subst elements0.
  rewrite Hpct0 in Hpct; inversion Hpct; subst pct0.
  rewrite Hcap0 in Hcap; inversion Hcap; subst cap0.
  destruct (indices_of_type_positions _ _ _ _ Hacero).
  destruct (indices_of_type_positions _ _ _ _ Hrets).
  split; [|split].
  - apply Forall2_length in Hvars. rewrite length_seq in Hvars. congruence.
  - subst x. apply vars_length.
  - rewrite Hequations. rewrite !length_app. simpl.
    destruct (floor_block_meaning _ _ _ _ _ (repeat 0 (List.length materials))
                Hfloor (repeat_length _ _)) as (-> & _).
    destruct (ceiling_block_meaning _ _ _ _ _
                (repeat 0 (List.length materials))
                Hceiling (repeat_length _ _)) as (-> & _).
    rewrite (concat_length_const 4 blocks).
    2:{ apply mapM_Forall2 in Hblocks.
        clear - Hblocks. induction Hblocks; constructor; auto.
        eapply range_block_length; eassumption. }
    rewrite (concat_length_const 2 fblocks).
    2:{ apply mapM_Forall2 in Hfblocks.
        clear - Hfblocks. induction Hfblocks; constructor; auto.
        apply fraction_block_shape in H. tauto. }
    rewrite (mapM_length _ _ _ Hblocks), (mapM_length _ _ _ Hfblocks).
    rewrite length_seq. lia.
Qed.

Lemma charge_model_size_witness :
  List.length (equations (model_of (EafChargeGekko.create_optimization_model
                                      catalog_recipe charge_spec 100)))
  = (1 + count (floor_applies
                  (positions_of_type catalog_recipe
                     ["fierro_Primera"; "Retornos_CM"; "cal"] "acero")
                  (VNum 0.5))
       + count (ceiling_applies
                  (positions_of_type catalog_recipe
                     ["fierro_Primera"; "Retornos_CM"; "cal"] "returns")
                  VNone)
       + 4 * 1 + 2 * 3)%nat.
Proof.
  refine (proj2 (proj2 (charge_model_size catalog_recipe charge_spec
            (VDict [("C", VNum 0.3)]) (VNum 0.5) VNone 100 _
            (variables_of (EafChargeGekko.create_optimization_model
                             catalog_recipe charge_spec 100))
            ["fierro_Primera"; "Retornos_CM"; "cal"] ["C"] _ _ _ _ _ _))).
  - left. vm_compute. reflexivity.
  - reflexivity.
  - reflexivity.
  - reflexivity.
  - reflexivity.
  - reflexivity.
Defined.

(** ** The evaluated chemistry *)

Lemma numeric_terms_inv {A} (coef : A -> result Q) :
  forall (ms : list A) (xs ts : list Q),
    mapM (fun p => c <- coef (snd p) ;; Ok (fst p * c)) (combine xs ms) = Ok ts ->
    List.length xs = List.length ms ->
    exists cs, mapM coef ms = Ok cs /\
               ts = map (fun p => fst p * snd p) (combine xs cs).
Proof.
  induction ms as [|mi ms IH]; intros [|v xs] ts H Hlen;
    simpl in *; try discriminate.
  - inversion H. exists []. split; reflexivity.
  - bind_inv H as t Ht. bind_inv Ht as c Hc. inversion Ht; subst t.
    bind_inv H as ts' Hts. inversion H; subst ts.
    destruct (IH xs ts' Hts) as (cs & Hcs & ->); [lia|].
    exists (c :: cs). rewrite Hc, Hcs. split; reflexivity.
Qed.

Lemma mix_value_inv (xs : list Q) (md : value) (materials : list string)
    (side e : string) (hw v : Q) :
  List.length xs = List.length materials ->
  mix_value xs md materials side e hw = Ok v ->
  exists cs, chemistry_of md materials side e = Ok cs /\
             ~ hw == 0 /\ v == charge_mix xs cs hw.
Proof.
  intros Hlen H. unfold mix_value in H.
  rewrite (mapM_range_zip
             (fun v mi => c <- material_chemistry md mi side e ;; Ok (v * c))
             xs materials Hlen) in H.
  bind_inv H as ts Hts.
  destruct (numeric_terms_inv (fun mi => material_chemistry md mi side e)
              _ _ _ Hts Hlen) as (cs & Hcs & ->).
  exists cs. split; [exact Hcs|].
  unfold truediv in H. destruct (Qeq_bool hw 0) eqn:E; [discriminate|].
  inversion H; subst v. split.
  - intros Hz. apply Qeq_eq_bool in Hz. congruence.
  - unfold charge_mix. now rewrite weighted_sum_products.
Qed.

Lemma weighted_sum_le (xs low high : list Q) :
  Forall (fun v => 0 <= v) xs -> Forall2 Qle low high ->
  weighted_sum xs low <= weighted_sum xs high.
Proof.
  unfold weighted_sum. intros Hx. revert low high.
  induction Hx as [|v xs Hv _ IH]; intros low high HF; simpl;
    [apply Qle_refl|].
  destruct HF as [|a b low high Hab HF]; simpl; [apply Qle_refl|].
  specialize (IH low high HF).
  assert (v * a <= v * b).
  { rewrite (Qmult_comm v a), (Qmult_comm v b).
    apply Qmult_le_compat_r; assumption. }
  lra.
Qed.

Lemma Forall2_join {A B C} (P : A -> B -> Prop) (R : A -> C -> Prop)
    (l : list A) (bs : list B) (cs : list C) :
  Forall2 P l bs -> Forall2 R l cs ->
  Forall2 (fun b c => exists a, In a l /\ P a b /\ R a c) bs cs.
Proof.
  intros HP. revert cs. induction HP as [|a b l bs Hab _ IH]; intros cs HR;
    inversion HR; subst; constructor.
  - exists a. simpl. auto.
  - eapply Forall2_impl; [|apply IH; eassumption].
    intros b' c' (a' & Hin & ? & ?). exists a'. simpl. auto.
Qed.

(** X9.  When the masses are not negative, the target weight is positive
    and every material's chemistry minimum is at most its maximum, the
    chemistry [calculate_chemistry_solution] returns has, element by
    element, its low value at most its high value. *)
Theorem estimated_range_is_ordered
    (xs : list Q) (md : value) (materials elements : list string) (hw : Q)
    (mins maxs : list (string * Q))
    (Hsolution : EafChargeGekko.calculate_chemistry_solution xs md materials
                   elements hw = Ok (mins, maxs))
    (Hlen : List.length xs = List.length materials)
    (Hweight : 0 < hw)
    (Hmasses : Forall (fun v => 0 <= v) xs)
    (Hordered : forall e low high, In e elements ->
                  chemistry_of md materials "min" e = Ok low ->
                  chemistry_of md materials "max" e = Ok high ->
                  Forall2 Qle low high) :
  Forall2 (fun lo hi => fst lo = fst hi /\ snd lo <= snd hi) mins maxs.
Proof.
  destruct (calculate_chemistry_solution_spec _ _ _ _ _ _ _ Hsolution)
    as (Hmin & Hmax).
  eapply Forall2_impl; [|exact (Forall2_join _ _ _ _ _ Hmin Hmax)].
  intros lo hi (e & Hin & (Hk1 & Hv1) & (Hk2 & Hv2)).
  split; [congruence|].
  destruct (mix_value_inv _ _ _ _ _ _ _ Hlen Hv1) as (low & Hlow & _ & E1).
  destruct (mix_value_inv _ _ _ _ _ _ _ Hlen Hv2) as (high & Hhigh & _ & E2).
  rewrite E1, E2. unfold charge_mix.
  pose proof (weighted_sum_le xs low high Hmasses
                (Hordered e low high Hin Hlow Hhigh)).
  apply Qle_shift_div_l; [assumption|].
  assert (Hd : weighted_sum xs low / hw * hw == weighted_sum xs low)
    by (field; lra).
  rewrite Hd. assumption.
Qed.

Lemma estimated_range_is_ordered_witness :
  match EafChargeGekko.calculate_chemistry_solution [50; 50; 0] catalog_recipe
          ["fierro_Primera"; "Retornos_CM"; "cal"] ["C"] 100 with
  | Ok (mins, maxs) =>
      Forall2 (fun lo hi => fst lo = fst hi /\ snd lo <= snd hi) mins maxs
  | Raise _ => False
  end.
Proof.
  destruct (EafChargeGekko.calculate_chemistry_solution [50; 50; 0]
              catalog_recipe ["fierro_Primera"; "Retornos_CM"; "cal"] ["C"] 100)
    as [[mins maxs]|err] eqn:E.
  - apply (estimated_range_is_ordered _ _ _ _ _ _ _ E).
    + reflexivity.
    + reflexivity.
    + repeat constructor; unfold Qle; simpl; lia.
    + intros e low high [<-|[]] Hlow Hhigh.
      vm_compute in Hlow. vm_compute in Hhigh.
      inversion Hlow; inversion Hhigh; subst.
      repeat constructor; unfold Qle; simpl; lia.
  - vm_compute in E. discriminate.
Defined.

(** ** The solve step *)

(** The variables of a charge model hold the seed they were declared
    with. *)
Lemma declared_values (initial : list float64) (stock : list value)
    (vs : list gvar) :
  Forall2 (declared (index initial) stock) (seq 0 (List.length initial)) vs ->
  map gv_value vs = initial.
Proof.
  intros HF. apply nth_error_ext. intros i. rewrite nth_error_map.
  pose proof (Forall2_length HF) as Hlen. rewrite length_seq in Hlen.
  destruct (Nat.ltb_spec i (List.length initial)) as [Hi|Hi].
  - destruct (Forall2_nth_error _ _ _ _ _ HF (nth_error_seq0 _ _ Hi))
      as (v & Hv & Hval & _).
    rewrite Hv. simpl. unfold index in Hval.
    destruct (nth_error initial i); [|discriminate]. congruence.
  - rewrite (proj2 (nth_error_None vs i)) by lia.
    rewrite (proj2 (nth_error_None initial i)) by lia. reflexivity.
Qed.

Lemma failed_solve_values
    (seed : value -> value -> value -> list string -> list string ->
            list Q -> list Q -> Q -> result (list float64))
    (md ci : value) (hw : Q) (m : model) (x : list expr)
    (solve : model -> solve_outcome) :
  charge_anatomy seed md ci hw m x ->
  (forall cmin cmax materials elements mat_min mat_max initial,
     keys md = Ok materials ->
     seed md cmin cmax materials elements mat_min mat_max hw = Ok initial ->
     List.length initial = List.length materials) ->
  exists cmin cmax materials elements mat_min mat_max initial,
    getitem ci "min" = Ok cmin /\ getitem ci "max" = Ok cmax /\
    keys md = Ok materials /\ keys cmin = Ok elements /\
    mapM (fun mi => material_fraction md mi "min") materials = Ok mat_min /\
    mapM (fun mi => material_fraction md mi "max") materials = Ok mat_max /\
    seed md cmin cmax materials elements mat_min mat_max hw = Ok initial /\
    try_solve solve m
    = match solve m with
      | Solved values => (true, values)
      | Failed _ => (false, initial)
      end.
Proof.
  intros [] Hlen.
  exists cmin, cmax, materials, elements, mat_min, mat_max, initial.
  repeat (split; [assumption|]).
  unfold try_solve. destruct (solve m); [reflexivity|].
  rewrite (declared_values initial stock); [reflexivity|].
  now rewrite (Hlen _ _ _ _ _ _ _ Hmaterials Hseed).
Qed.




(** ** The chemistry of a feasible charge *)

Lemma Forall2_In_l {A B} (R : A -> B -> Prop) (l : list A) (bs : list B)
    (a : A) :
  Forall2 R l bs -> In a l -> exists b, In b bs /\ R a b.
Proof.
  induction 1 as [|a' b' l bs Hab _ IH]; intros Hin; [contradiction|].
  destruct Hin as [->|Hin].
  - exists b'. simpl. auto.
  - destruct (IH Hin) as (b & Hb & HR). exists b. simpl. auto.
Qed.

Lemma feasible_chemistry
    (seed : value -> value -> value -> list string -> list string ->
            list Q -> list Q -> Q -> result (list float64))
    (md ci cmin cmax : value) (hw : Q) (m : model) (x : list expr)
    (materials elements : list string) (xs : list Q) (e : string)
    (lo hi : Q) (low high : list Q) :
  charge_anatomy seed md ci hw m x ->
  keys md = Ok materials ->
  getitem ci "min" = Ok cmin -> getitem ci "max" = Ok cmax ->
  keys cmin = Ok elements -> In e elements -> ~ hw == 0 ->
  feasible m xs = true ->
  bound_of cmin e = Ok lo -> bound_of cmax e = Ok hi ->
  chemistry_of md materials "min" e = Ok low ->
  chemistry_of md materials "max" e = Ok high ->
  in_range lo hi (charge_mix xs low hw) /\
  in_range lo hi (charge_mix xs high hw).
Proof.
  intros Ha Hkeys Hcmin Hcmax Helements Hin Hweight Hfeasible
         Hlo Hhi Hlow Hhigh.
  destruct (feasible_length _ _ _ _ _ _ _ _ Ha Hkeys Hfeasible)
    as (Hlen & _ & He).
  destruct Ha.
  rewrite Hmaterials in Hkeys; inversion Hkeys; subst materials0.
  rewrite Hcmin0 in Hcmin; inversion Hcmin; subst cmin0.
  rewrite Hcmax0 in Hcmax; inversion Hcmax; subst cmax0.
  rewrite Helements0 in Helements; inversion Helements; subst elements0.
  destruct (Forall2_In_l _ _ _ _ (mapM_Forall2 _ _ _ Hblocks) Hin)
    as (block & Hblock & Hrange).
  rewrite Hequations in He. rewrite !forallb_app in He.
  apply andb_true_iff in He. destruct He as [_ He].
  apply andb_true_iff in He. destruct He as [_ He].
  apply andb_true_iff in He. destruct He as [_ He].
  apply andb_true_iff in He. destruct He as [He _].
  pose proof (forallb_concat_In _ _ _ He Hblock) as Hall.
  apply range_block_meaning in Hrange.
  destruct Hrange as (lo' & hi' & low' & high' & Hlo' & Hhi' & Hlow' & Hhigh'
                      & min_mix & max_mix & _ & Hsem).
  unfold bound_of in Hlo, Hhi. unfold chemistry_of in Hlow, Hhigh.
  rewrite Hlo in Hlo'. rewrite Hhi in Hhi'.
  rewrite Hlow in Hlow'. rewrite Hhigh in Hhigh'.
  inversion Hlo'; inversion Hhi'; inversion Hlow'; inversion Hhigh'; subst.
  destruct (Hsem xs Hlen Hweight) as (_ & _ & Hiff).
  now apply Hiff.
Qed.

(** X10.  In every assignment feasible for a charge model, the low mix and
    the high mix of every element of the specification lie between the
    bounds of the element. *)
Theorem feasible_charge_respects_chemistry
    (md ci cmin cmax : value) (hw : Q) (m : model) (x : list expr)
    (materials elements : list string) (xs : list Q) (e : string)
    (lo hi : Q) (low high : list Q)
    (Hbuilt : built_charge_model md ci hw m x)
    (Hkeys : keys md = Ok materials)
    (Hcmin : getitem ci "min" = Ok cmin)
    (Hcmax : getitem ci "max" = Ok cmax)
    (Helements : keys cmin = Ok elements)
    (Hin : In e elements)
    (Hweight : ~ hw == 0)
    (Hfeasible : feasible m xs = true)
    (Hlo : bound_of cmin e = Ok lo)
    (Hhi : bound_of cmax e = Ok hi)
    (Hlow : chemistry_of md materials "min" e = Ok low)
    (Hhigh : chemistry_of md materials "max" e = Ok high) :
  in_range lo hi (charge_mix xs low hw) /\
  in_range lo hi (charge_mix xs high hw).
Proof.
  destruct (built_charge_model_anatomy _ _ _ _ _ Hbuilt) as (seed & Ha).
  eapply feasible_chemistry; eassumption.
Qed.

Lemma feasible_charge_respects_chemistry_witness :
  in_range 0.0030 0.0040 (charge_mix [50; 50; 0] [0.0050; 0.0010; 0.000] 100) /\
  in_range 0.0030 0.0040 (charge_mix [50; 50; 0] [0.0060; 0.0020; 0.000] 100).
Proof.
  refine (feasible_charge_respects_chemistry catalog_recipe charge_spec
            (VDict [("C", VNum 0.3)]) (VDict [("C", VNum 0.4)]) 100
            (model_of (EafChargeGekko.create_optimization_model
                         catalog_recipe charge_spec 100))
            (variables_of (EafChargeGekko.create_optimization_model
                             catalog_recipe charge_spec 100))
            ["fierro_Primera"; "Retornos_CM"; "cal"] ["C"] [50; 50; 0] "C"
            0.0030 0.0040 [0.0050; 0.0010; 0.000] [0.0060; 0.0020; 0.000]
            _ _ _ _ _ _ _ _ _ _ _ _).
  - left. vm_compute. reflexivity.
  - reflexivity.
  - reflexivity.
  - reflexivity.
  - reflexivity.
  - simpl; auto.
  - intros H; vm_compute in H; discriminate.
  - vm_compute. reflexivity.
  - vm_compute. reflexivity.
  - vm_compute. reflexivity.
  - vm_compute. reflexivity.
  - vm_compute. reflexivity.
Defined.

(** ** Targets narrower than the materials *)

Lemma Forall_entries (P : Q -> Prop) (xs : list Q) :
  (forall i, (i < List.length xs)%nat -> P (entry xs i)) -> Forall P xs.
Proof.
  intros H. apply Forall_nth. intros i d Hi.
  rewrite (nth_indep xs d 0 Hi). now apply H.
Qed.

Lemma feasible_nonneg
    (seed : value -> value -> value -> list string -> list string ->
            list Q -> list Q -> Q -> result (list float64))
    (md ci : value) (hw : Q) (m : model) (x : list expr)
    (materials : list string) (xs : list Q) :
  charge_anatomy seed md ci hw m x -> keys md = Ok materials ->
  feasible m xs = true -> Forall (fun v => 0 <= v) xs.
Proof.
  intros Hm Hk Hf.
  pose proof (proj1 (feasible_length _ _ _ _ _ _ _ _ Hm Hk Hf)) as Hlen.
  apply Forall_entries. intros i Hi.
  destruct (nth_error materials i) as [name|] eqn:E.
  - exact (proj1 (feasible_bounds _ _ _ _ _ _ _ _ _ _ Hm Hk Hf E)).
  - apply nth_error_None in E. lia.
Qed.

(** Where every high value exceeds the low one by [width], the weighted
    sums differ by [width] times the total mass at least. *)
Lemma weighted_sum_gap (width : Q) (xs low high : list Q) :
  Forall (fun v => 0 <= v) xs ->
  Forall2 (fun l h => l + width <= h) low high ->
  List.length xs = List.length low ->
  weighted_sum xs low + width * Py.sum xs <= weighted_sum xs high.
Proof.
  unfold weighted_sum. intros Hx. revert low high.
  induction Hx as [|v xs Hv _ IH]; intros low high HF Hlen.
  - simpl. unfold Py.sum; simpl. lra.
  - destruct HF as [|a b low high Hab HF]; [discriminate|].
    simpl in Hlen. specialize (IH low high HF (eq_add_S _ _ Hlen)).
    simpl. rewrite sum_cons.
    assert (v * a + width * v <= v * b) by nra.
    lra.
Qed.

(** X11.  When the chemistry range of every material for some element is
    wider than the target range of that element, the charge model is
    infeasible whatever the stock: both endpoints of the mix cannot lie in
    the target range. *)
Theorem narrow_target_is_infeasible
    (md ci cmin cmax : value) (hw : Q) (m : model) (x : list expr)
    (materials elements : list string) (e : string)
    (lo hi width : Q) (low high : list Q)
    (Hbuilt : built_charge_model md ci hw m x)
    (Hkeys : keys md = Ok materials)
    (Hcmin : getitem ci "min" = Ok cmin)
    (Hcmax : getitem ci "max" = Ok cmax)
    (Helements : keys cmin = Ok elements)
    (Hin : In e elements)
    (Hweight : 0 < hw)
    (Hlo : bound_of cmin e = Ok lo)
    (Hhi : bound_of cmax e = Ok hi)
    (Hlow : chemistry_of md materials "min" e = Ok low)
    (Hhigh : chemistry_of md materials "max" e = Ok high)
    (Hwide : Forall2 (fun l h => l + width <= h) low high)
    (Hnarrow : hi - lo < width) :
  forall xs, feasible m xs = false.
Proof.
  intros xs. destruct (feasible m xs) eqn:Hf; [exfalso|reflexivity].
  destruct (built_charge_model_anatomy _ _ _ _ _ Hbuilt) as (seed & Ha).
  pose proof (proj1 (feasible_length _ _ _ _ _ _ _ _ Ha Hkeys Hf)) as Hlen.
  pose proof (feasible_sum _ _ _ _ _ _ _ _ Ha Hkeys Hf) as Hsum.
  pose proof (feasible_nonneg _ _ _ _ _ _ _ _ Ha Hkeys Hf) as Hnn.
  assert (Hne : ~ hw == 0) by lra.
  destruct (feasible_chemistry _ _ _ _ _ _ _ _ _ _ _ _ _ _ _ _
              Ha Hkeys Hcmin Hcmax Helements Hin Hne Hf Hlo Hhi Hlow Hhigh)
    as ((Hl & _) & (_ & Hh)).
  assert (Hll : List.length xs = List.length low).
  { unfold chemistry_of in Hlow. apply mapM_length in Hlow. congruence. }
  pose proof (weighted_sum_gap width xs low high Hnn Hwide Hll) as Hgap.
  unfold charge_mix in Hl, Hh. rewrite Hsum in Hgap.
  assert (Hlw : lo * hw <= weighted_sum xs low).
  { apply Qle_trans with (weighted_sum xs low / hw * hw).
    - apply Qmult_le_compat_r; lra.
    - assert (E : weighted_sum xs low / hw * hw == weighted_sum xs low)
        by (field; lra).
      rewrite E. apply Qle_refl. }
  assert (Hhw : weighted_sum xs high <= hi * hw).
  { apply Qle_trans with (weighted_sum xs high / hw * hw).
    - assert (E : weighted_sum xs high / hw * hw == weighted_sum xs high)
        by (field; lra).
      rewrite E. apply Qle_refl.
    - apply Qmult_le_compat_r; lra. }
  nra.
Qed.

Lemma narrow_target_is_infeasible_witness :
  feasible (model_of (EafChargeGekko.create_optimization_model
                        catalog_full spec_narrow 20000))
           [10000; 5000; 5000] = false.
Proof.
  refine (narrow_target_is_infeasible catalog_full spec_narrow
            (VDict [("C", VNum 0.45)]) (VDict [("C", VNum 0.46)]) 20000 _
            (variables_of (EafChargeGekko.create_optimization_model
                             catalog_full spec_narrow 20000))
            ["fierro_Primera"; "Retornos_CM"; "chatarra_CM"] ["C"] "C"
            (0.45 / 100.0) (0.46 / 100.0) (0.1 / 100.0)
            [0.5 / 100.0; 0.1 / 100.0; 0.2 / 100.0]
            [0.6 / 100.0; 0.2 / 100.0; 0.3 / 100.0]
            _ _ _ _ _ _ _ _ _ _ _ _ _ [10000; 5000; 5000]).
  - left. vm_compute. reflexivity.
  - reflexivity.
  - reflexivity.
  - reflexivity.
  - reflexivity.
  - simpl; auto.
  - reflexivity.
  - reflexivity.
  - reflexivity.
  - reflexivity.
  - reflexivity.
  - repeat constructor; vm_compute; intros H; discriminate H.
  - reflexivity.
Defined.

(** ** The chemistry report of [reports.py] *)

(** X12.  On every catalog from which a charge builder builds a model, and
    for every assignment, [calcular_quimica_solucion] of [reports.py] raises
    [KeyError] or [AttributeError], and [print_quimica_carga] does not
    return: the chemistry report cannot be printed for any charge that was
    computed. *)
Theorem reports_chemistry_never_returns
    (md ci : value) (hw : Q) (m : model) (x : list expr) (xs : list Q)
    (Hbuilt : built_charge_model md ci hw m x) :
  (Reports.calcular_quimica_solucion xs md = Raise KeyError \/
   Reports.calcular_quimica_solucion xs md = Raise AttributeError) /\
  forall alloy_data, returns (Reports.print_quimica_carga xs md alloy_data) = false.
Proof.
  assert (H : Reports.calcular_quimica_solucion xs md = Raise KeyError \/
              Reports.calcular_quimica_solucion xs md = Raise AttributeError).
  { destruct Hbuilt as [Hb|Hb];
      eapply reports_evaluator_rejects_builder_catalogs; exact Hb. }
  split; [exact H|].
  intros alloy_data. unfold Reports.print_quimica_carga.
  destruct (getitem alloy_data "chemistry") as [chem|]; [simpl|reflexivity].
  destruct (getitem chem "min") as [charge_min|]; [simpl|reflexivity].
  destruct (keys charge_min) as [elements|]; [simpl|reflexivity].
  destruct (getitem chem "max") as [charge_max|]; [simpl|reflexivity].
  destruct H as [H|H]; rewrite H; reflexivity.
Qed.

Lemma reports_chemistry_never_returns_witness :
  Reports.calcular_quimica_solucion [50; 50; 0] catalog_recipe = Raise KeyError \/
  Reports.calcular_quimica_solucion [50; 50; 0] catalog_recipe
  = Raise AttributeError.
Proof.
  refine (proj1 (reports_chemistry_never_returns catalog_recipe charge_spec 100
            (model_of (CalculoCargaEaf.crear_modelelo catalog_recipe
                         charge_spec 100))
            (variables_of (CalculoCargaEaf.crear_modelelo catalog_recipe
                             charge_spec 100))
            [50; 50; 0] _)).
  right. vm_compute. reflexivity.
Defined.
